(** * Focus trap of @headlessui/vue: a shallow embedding of
      [hooks/use-focus-trap.ts] and of the [FocusTrap] host component.

    The engine is event driven and single threaded: every handler runs to
    completion before the next event is processed.  Each handler of the
    source is therefore a function from the state it can read (the browser
    document, the reactive inputs, the variables captured by the closure of
    [useFocusTrap]) to the state it leaves behind. *)

From Stdlib Require Import ZArith String List Bool Lia Sorted Permutation.
From stdpp Require Import gmap strings list.
Import ListNotations.
Local Open Scope Z_scope.
Set Warnings "-register-all".

(** ** Feature flags: [enum Features] *)

Module Features.
Definition None : Z := Z.shiftl 1 0.
Definition InitialFocus : Z := Z.shiftl 1 1.
Definition TabLock : Z := Z.shiftl 1 2.
Definition FocusLock : Z := Z.shiftl 1 3.
Definition RestoreFocus : Z := Z.shiftl 1 4.
Definition All : Z :=
  Z.lor (Z.lor (Z.lor InitialFocus TabLock) FocusLock) RestoreFocus.

(** The four members that name a behaviour of the hook. *)
Definition flags : list Z := [InitialFocus; TabLock; FocusLock; RestoreFocus].

(** [Boolean(features & flag)]: a number is truthy iff it is not zero.
    The masks used by the source have their bit below bit 5, so the
    conversion to a signed 32-bit integer that JavaScript applies to the
    operands of [&] does not change the result for any integer [features]. *)
Definition has (features flag : Z) : bool := negb (Z.land features flag =? 0).

(** The value of an expression [f1 | f2 | ... | fn]. *)
Definition union (fs : list Z) : Z := fold_right Z.lor 0 fs.
End Features.

(** ** The browser document *)

(** An element is known by its identity. *)
Definition Elem := nat.

(** A DOM node with its children in document order.  [nfocusable] tells
    whether the focusable-element selector of the traversal utility matches
    the node. *)
Inductive Node : Type :=
  mkNode { nid : Elem; nfocusable : bool; nchildren : list Node }.

(** The node and all its descendants, in document order. *)
Fixpoint subtree (n : Node) : list Node :=
  match n with
  | mkNode _ _ cs => n :: flat_map subtree cs
  end.

(** The strict descendants of a node, in document order. *)
Definition descendants (n : Node) : list Node := flat_map subtree (nchildren n).

(** A reference cell [Ref<HTMLElement | null>] is known by its identity; the
    store [refs] gives its [.value], an absent key standing for [null]. *)
Definition RefId := nat.

(** The document: the trees that exist (the one attached to the page and
    any detached ones), the element [document.activeElement] and the
    template references filled in by the rendering layer. *)
Record World : Type := mkWorld {
  dom : list Node;
  activeElement : option Elem;
  refs : gmap RefId Elem
}.

Definition lookup_node (d : list Node) (e : Elem) : option Node :=
  List.find (fun n => Nat.eqb (nid n) e) (flat_map subtree d).

(** [a.contains(b)] of the DOM: [b] is [a] or one of its descendants;
    [false] when [b] is [null]. *)
Definition node_contains (d : list Node) (a : Elem) (b : option Elem) : bool :=
  match b with
  | None => false
  | Some b' =>
      match lookup_node d a with
      | Some n => List.existsb (fun m => Nat.eqb (nid m) b') (subtree n)
      | None => Nat.eqb a b'
      end
  end.

(** What the traversal utility enumerates inside a root: the focusable
    strict descendants, in document order. *)
Definition focusable_descendants (d : list Node) (c : Elem) : list Elem :=
  match lookup_node d c with
  | Some n => List.map nid (List.filter nfocusable (descendants n))
  | None => []
  end.

Definition set_active (w : World) (e : option Elem) : World :=
  mkWorld (dom w) e (refs w).

(** Modelled from the spec: [focusElement] of utils/focus-management, the
    primitive that sets focus to an element.  It is trusted to do exactly
    that; a reference that resolves to no element is treated as absent and
    nothing happens. *)
Definition focusElement (w : World) (e : option Elem) : World :=
  match e with
  | Some x => set_active w (Some x)
  | None => w
  end.

(** Modelled from the spec: the request and the result of [focusIn] of
    utils/focus-management: a direction among first, previous, next and
    last, optionally combined with wrap-around, answered by success or by
    the not-found signal. *)
Inductive FocusDirection : Type := First | Previous | Next | Last.

Record Focus : Type := mkFocus { direction : FocusDirection; wrapAround : bool }.

(** [d | Focus.WrapAround] *)
Definition with_WrapAround (d : FocusDirection) : Focus := mkFocus d true.

Inductive FocusResult : Type := Error | Success.

Fixpoint index_of (e : Elem) (l : list Elem) : option nat :=
  match l with
  | [] => None
  | x :: l' => if Nat.eqb x e then Some O else option_map S (index_of e l')
  end.

(** The index asked for, before wrap-around.  From an active element that
    is not one of the candidates, next enters at the first candidate and
    previous at the last. *)
Definition target_index (f : FocusDirection) (pos : option nat) (total : Z) : Z :=
  match f, pos with
  | First, _ => 0
  | Last, _ => total - 1
  | Next, Some i => Z.of_nat i + 1
  | Next, None => 0
  | Previous, Some i => Z.of_nat i - 1
  | Previous, None => total - 1
  end.

(** Modelled from the spec: [focusIn] of utils/focus-management.  Given a
    root and a request, focus moves to the focusable descendant of the root
    that the request designates and the result is success; with wrap-around
    the end cycles to the start and the start to the end; when there is no
    such descendant the result is the not-found signal and focus does not
    move. *)
Definition focusIn (w : World) (root : Elem) (f : Focus) : FocusResult * World :=
  let els := focusable_descendants (dom w) root in
  let total := Z.of_nat (List.length els) in
  if total =? 0 then (Error, w)
  else
    let pos :=
      match activeElement w with
      | Some a => index_of a els
      | None => None
      end in
    let i := target_index (direction f) pos total in
    let i' := if wrapAround f then i mod total else i in
    if (i' <? 0) || (total <=? i') then (Error, w)
    else
      match nth_error els (Z.to_nat i') with
      | Some e => (Success, focusElement w (Some e))
      | None => (Error, w)
      end.

(** ** JavaScript values the engine compares and the ways a call completes *)

(** A call returns a value or throws. *)
Inductive Completion (A : Type) : Type :=
  | Normal (a : A)
  | Throw (message : string).
Arguments Normal {A} a.
Arguments Throw {A} message.

(** The values the watchers observe: [undefined], [null], a boolean, an
    element, or an object known by its identity. *)
Inductive WVal : Type :=
  | WUndefined
  | WNull
  | WBool (b : bool)
  | WElem (e : Elem)
  | WObject (identity : nat).

(** [a === b] *)
Definition strict_eq (a b : WVal) : bool :=
  match a, b with
  | WUndefined, WUndefined => true
  | WNull, WNull => true
  | WBool x, WBool y => Bool.eqb x y
  | WElem x, WElem y => Nat.eqb x y
  | WObject x, WObject y => Nat.eqb x y
  | _, _ => false
  end.

(** [arr[idx]]: [undefined] past the end. *)
Definition js_index (arr : list WVal) (idx : nat) : WVal := nth idx arr WUndefined.

Fixpoint every_from (idx : nat) (newValues prevValues : list WVal) : bool :=
  match newValues with
  | [] => true
  | value :: rest =>
      strict_eq (js_index prevValues idx) value && every_from (S idx) rest prevValues
  end.

(** [newValues.every((value, idx) => prevValues[idx] === value)] *)
Definition unchanged (newValues prevValues : list WVal) : bool :=
  every_from 0 newValues prevValues.

Definition of_element (e : option Elem) : WVal :=
  match e with
  | Some x => WElem x
  | None => WNull
  end.

(** ** The session *)

(** [options.value]: both members are optional. [initialFocus] is a
    reference to an element, [containers] a reference to a set of
    references; the object itself is known by its identity. *)
Record Options : Type := mkOptions {
  identity : nat;
  initialFocus : option RefId;
  containers : option (gset RefId)
}.

(** What a call of [useFocusTrap] can read and write: the document, its
    three arguments, the closure variables [restoreElement],
    [previousActiveElement] and [mounted], and whether the restore watcher
    has a cleanup registered through [onInvalidate]. *)
Record State : Type := mkState {
  world : World;
  container : RefId;
  features : Z;
  options : Options;
  restoreElement : option Elem;
  previousActiveElement : option Elem;
  mounted : bool;
  invalidate : bool
}.

Definition set_world (s : State) (w : World) : State :=
  mkState w (container s) (features s) (options s) (restoreElement s)
    (previousActiveElement s) (mounted s) (invalidate s).

Definition set_restoreElement (s : State) (e : option Elem) : State :=
  mkState (world s) (container s) (features s) (options s) e
    (previousActiveElement s) (mounted s) (invalidate s).

Definition set_previousActiveElement (s : State) (e : option Elem) : State :=
  mkState (world s) (container s) (features s) (options s) (restoreElement s)
    e (mounted s) (invalidate s).

Definition set_mounted (s : State) (b : bool) : State :=
  mkState (world s) (container s) (features s) (options s) (restoreElement s)
    (previousActiveElement s) b (invalidate s).

Definition set_invalidate (s : State) (b : bool) : State :=
  mkState (world s) (container s) (features s) (options s) (restoreElement s)
    (previousActiveElement s) (mounted s) b.

(** [container.value] *)
Definition container_value (s : State) : option Elem :=
  refs (world s) !! container s.

(** [options.value.initialFocus?.value] *)
Definition initialFocus_value (s : State) : option Elem :=
  match initialFocus (options s) with
  | Some r => refs (world s) !! r
  | None => None
  end.

(** [document.activeElement] *)
Definition document_activeElement (s : State) : option Elem :=
  activeElement (world s).

Definition featuresRestoreFocus (s : State) : bool :=
  Features.has (features s) Features.RestoreFocus.

Definition featuresInitialFocus (s : State) : bool :=
  Features.has (features s) Features.InitialFocus.

(** The state [useFocusTrap] starts from.  [restoreElement] starts as the
    focused element when there is a window. *)
Definition useFocusTrap (has_window : bool) (w : World) (container : RefId)
    (features : Z) (options : Options) : State :=
  mkState w container features options
    (if has_window then activeElement w else None) None false false.

(** ** The containment check *)

(** [x?.contains(element)]: [undefined] when [x] is [null], never a throw. *)
Definition optional_contains (w : World) (x : option Elem) (element : Elem)
    : Completion (option bool) :=
  match x with
  | Some c => Normal (Some (node_contains (dom w) c (Some element)))
  | None => Normal None
  end.

(** [x.contains(element)] without the optional chaining: a [TypeError] when
    [x] is [null]. *)
Definition member_contains (w : World) (x : option Elem) (element : Elem)
    : Completion bool :=
  match x with
  | Some c => Normal (node_contains (dom w) c (Some element))
  | None => Throw "TypeError: Cannot read properties of null"
  end.

(** The loop of [contains] over the references of the set. *)
Fixpoint contains_loop (w : World) (rs : list RefId) (element : Elem)
    : Completion bool :=
  match rs with
  | [] => Normal false
  | r :: rs' =>
      match optional_contains w (refs w !! r) element with
      | Throw m => Throw m
      | Normal (Some true) => Normal true
      | Normal _ => contains_loop w rs' element
      end
  end.

Definition contains (w : World) (containers : gset RefId) (element : Elem)
    : Completion bool :=
  contains_loop w (elements containers) element.

(** [new Set(options.value.containers?.value)] followed by [add(container)] *)
Definition allContainers (s : State) : gset RefId :=
  default ∅ (containers (options s)) ∪ {[ container s ]}.

(** ** The watchers registered by [onMounted] *)

(** What a watcher callback leaves behind: it returns, or it throws with the
    state as it is at the throw. *)
Inductive Outcome : Type :=
  | Returned (s : State)
  | Threw (message : string) (s : State).

Definition state_of (o : Outcome) : State :=
  match o with
  | Returned s => s
  | Threw _ s => s
  end.

(** First watcher: capture the focused element before the trap is enabled. *)
Definition arm_watcher (newValues prevValues : list WVal) (s : State) : State :=
  if unchanged newValues prevValues then s
  else if negb (featuresRestoreFocus s) then s
  else set_restoreElement (set_mounted s true) (document_activeElement s).

(** The callback the second watcher passes to [onInvalidate]. *)
Definition restore_cleanup (s : State) : State :=
  if Bool.eqb (mounted s) false then s
  else
    let s1 := set_mounted s false in
    let s2 := set_world s1 (focusElement (world s1) (restoreElement s1)) in
    set_restoreElement s2 None.

(** Second watcher: restore the focus when the component is unmounted. *)
Definition restore_watcher (newValues prevValues : list WVal) (s : State) : State :=
  if unchanged newValues prevValues then s
  else if negb (featuresRestoreFocus s) then s
  else set_invalidate s true.

Definition no_focusable_elements : string :=
  "There are no focusable elements inside the <FocusTrap />".

Definition same_element (a b : option Elem) : bool :=
  match a, b with
  | Some x, Some y => Nat.eqb x y
  | None, None => true
  | _, _ => false
  end.

(** Third watcher: handle initial focus. *)
Definition initial_focus_watcher (newValues prevValues : list WVal) (s : State)
    : Outcome :=
  if unchanged newValues prevValues then Returned s
  else if negb (featuresInitialFocus s) then Returned s
  else
    match container_value s with
    | None => Returned s
    | Some c =>
        let activeElement := document_activeElement s in
        let already :=
          match initialFocus_value s with
          | Some target => same_element (Some target) activeElement
          | None => node_contains (dom (world s)) c activeElement
          end in
        if already then Returned (set_previousActiveElement s activeElement)
        else
          match initialFocus_value s with
          | Some target =>
              let s' := set_world s (focusElement (world s) (Some target)) in
              Returned (set_previousActiveElement s' (document_activeElement s'))
          | None =>
              match focusIn (world s) c (mkFocus First false) with
              | (Error, w') => Threw no_focusable_elements (set_world s w')
              | (Success, w') =>
                  let s' := set_world s w' in
                  Returned (set_previousActiveElement s' (document_activeElement s'))
              end
          end
    end.

(** The values of the sources of the watchers. *)
Definition restore_sources (s : State) : list WVal :=
  [WBool (featuresRestoreFocus s)].

Definition initial_focus_sources (s : State) : list WVal :=
  [ of_element (container_value s);
    WObject (identity (options s));
    match initialFocus (options s) with
    | Some r => of_element (refs (world s) !! r)
    | None => WUndefined
    end;
    WBool (featuresInitialFocus s) ].

(** [onMounted]: the three watchers are created with [immediate: true], so
    each callback runs at once, in the order of creation, with no previous
    values (an empty array). *)
Definition onMounted (s : State) : Outcome :=
  let s1 := arm_watcher (restore_sources s) [] s in
  let s2 := restore_watcher (restore_sources s1) [] s1 in
  initial_focus_watcher (initial_focus_sources s2) [] s2.

(** Unmounting stops the watchers: a cleanup registered through
    [onInvalidate] runs, once. *)
Definition unmount (s : State) : State :=
  if invalidate s then restore_cleanup (set_invalidate s false) else s.

(** *** The flag [RestoreFocus] changes while the session is mounted *)

Definition set_features (s : State) (f : Z) : State :=
  mkState (world s) (container s) f (options s) (restoreElement s)
    (previousActiveElement s) (mounted s) (invalidate s).

(** A later run of the second watcher.  Before the runtime calls the
    callback again it calls the cleanup that an earlier run registered
    through [onInvalidate]; the registration stays in place, so that a run
    which registers nothing leaves the earlier cleanup to be called again
    before the next run and when the watcher is stopped. *)
Definition restore_watcher_rerun (newValues prevValues : list WVal) (s : State)
    : State :=
  restore_watcher newValues prevValues
    (if invalidate s then restore_cleanup s else s).

(** The caller turns [RestoreFocus] on or off in [features.value], leaving
    the other flags as they are.  Writing the value the flag already has
    triggers nothing.  Otherwise the three watchers run again in the order
    of their creation, each callback with the values it observes now and
    those it observed before the change. *)
Definition set_RestoreFocus (s : State) (on : bool) : State :=
  if Bool.eqb (featuresRestoreFocus s) on then s
  else
    let prevRestore := restore_sources s in
    let prevInitial := initial_focus_sources s in
    let s0 := set_features s (Z.lxor (features s) Features.RestoreFocus) in
    let s1 := arm_watcher (restore_sources s0) prevRestore s0 in
    let s2 := restore_watcher_rerun (restore_sources s1) prevRestore s1 in
    state_of (initial_focus_watcher (initial_focus_sources s2) prevInitial s2).

(** ** The window event handlers *)

(** Modelled from the spec: [Keys.Tab] of keyboard.ts, the Tab key. *)
Definition Keys_Tab : string := "Tab".

Record KeyboardEvent : Type := mkKeyboardEvent {
  key : string;
  shiftKey : bool;
  keyDefaultPrevented : bool
}.

(** The target of a focus event: [null], an [HTMLElement], or something
    else (the window, the document, an element that is not an
    [HTMLElement]). *)
Inductive EventTarget : Type :=
  | TargetNull
  | TargetHTMLElement (e : Elem)
  | TargetOther.

Record FocusEvent : Type := mkFocusEvent {
  target : EventTarget;
  defaultPrevented : bool;
  propagationStopped : bool
}.

(** [event.preventDefault()] and [event.stopPropagation()] *)
Definition key_preventDefault (event : KeyboardEvent) : KeyboardEvent :=
  mkKeyboardEvent (key event) (shiftKey event) true.

Definition preventDefault (event : FocusEvent) : FocusEvent :=
  mkFocusEvent (target event) true (propagationStopped event).

Definition stopPropagation (event : FocusEvent) : FocusEvent :=
  mkFocusEvent (target event) (defaultPrevented event) true.

(** Handle Tab and Shift+Tab keyboard events. *)
Definition keydown_handler (s : State) (event : KeyboardEvent)
    : State * KeyboardEvent :=
  if negb (Features.has (features s) Features.TabLock) then (s, event)
  else
    match container_value s with
    | None => (s, event)
    | Some c =>
        if negb (String.eqb (key event) Keys_Tab) then (s, event)
        else
          let event' := key_preventDefault event in
          match focusIn (world s) c
                  (with_WrapAround (if shiftKey event then Previous else Next)) with
          | (Success, w') =>
              let s' := set_world s w' in
              (set_previousActiveElement s' (document_activeElement s'), event')
          | (Error, w') => (set_world s w', event')
          end
    end.

(** Prevent programmatically escaping. *)
Definition focus_handler (s : State) (event : FocusEvent)
    : Completion (State * FocusEvent) :=
  if negb (Features.has (features s) Features.FocusLock) then Normal (s, event)
  else
    let allContainers := allContainers s in
    if Nat.eqb (size allContainers) 0 then Normal (s, event)
    else
      match previousActiveElement s with
      | None => Normal (s, event)
      | Some previous =>
          if negb (mounted s) then Normal (s, event)
          else
            match target event with
            | TargetHTMLElement toElement =>
                match contains (world s) allContainers toElement with
                | Throw m => Throw m
                | Normal false =>
                    let event' := stopPropagation (preventDefault event) in
                    Normal (set_world s (focusElement (world s) (Some previous)),
                            event')
                | Normal true =>
                    let s' := set_previousActiveElement s (Some toElement) in
                    Normal (set_world s' (focusElement (world s') (Some toElement)),
                            event)
                end
            | _ =>
                Normal (set_world s
                          (focusElement (world s) (previousActiveElement s)),
                        event)
            end
      end.

(** ** Sequences of window events *)

(** A call of [focus()] made by a handler may itself make the browser
    deliver a focus event; that event is one more notification of the
    sequence, handled after the handler that caused it has returned. *)

Inductive Event : Type :=
  | Keydown (event : KeyboardEvent)
  | FocusChange (event : FocusEvent).

Definition dispatch (s : State) (e : Event) : Completion State :=
  match e with
  | Keydown event => Normal (fst (keydown_handler s event))
  | FocusChange event =>
      match focus_handler s event with
      | Normal (s', _) => Normal s'
      | Throw m => Throw m
      end
  end.

(** The events are handled one after the other; a throw ends the run. *)
Fixpoint run (s : State) (events : list Event) : Completion State :=
  match events with
  | [] => Normal s
  | e :: rest =>
      match dispatch s e with
      | Normal s' => run s' rest
      | Throw m => Throw m
      end
  end.

(** ** The host component [FocusTrap] *)

(** The JavaScript values that occur in [setup]: [undefined], strings,
    functions, plain objects with their own members, and a reference
    [Ref<Features>] holding a number. *)
Inductive JSValue : Type :=
  | JSUndefined
  | JSNull
  | JSString (s : string)
  | JSFunction
  | JSObject (members : list (string * JSValue))
  | JSFeaturesRef (value : Z).

Fixpoint own_member (members : list (string * JSValue)) (name : string) : JSValue :=
  match members with
  | [] => JSUndefined
  | (k, v) :: rest => if String.eqb k name then v else own_member rest name
  end.

(** [o.name] on an object: the member, or [undefined] when there is none
    (no member of [Object.prototype] is called [All]). *)
Definition get_member (o : JSValue) (name : string) : JSValue :=
  match o with
  | JSObject members => own_member members name
  | _ => JSUndefined
  end.

(** [defineComponent] returns the object it is given. *)
Definition FocusTrap : JSValue :=
  JSObject
    [ ("name"%string, JSString "FocusTrap");
      ("props"%string,
        JSObject
          [ ("as"%string,
              JSObject [ ("type"%string, JSObject []);
                         ("default"%string, JSString "div") ]);
            ("initialFocus"%string,
              JSObject [ ("type"%string, JSFunction);
                         ("default"%string, JSNull) ]) ]);
      ("render"%string, JSFunction);
      ("setup"%string, JSFunction) ].

(** The parameter [features: Ref<Features> = ref(Features.All)]: the default
    applies exactly when the argument is [undefined]. *)
Definition features_parameter (argument : JSValue) : JSValue :=
  match argument with
  | JSUndefined => JSFeaturesRef Features.All
  | v => v
  end.

(** [features.value] as an operand of [&]: the number held by the
    reference; [undefined], which is what [.value] gives on anything else,
    converts to 0. *)
Definition features_value (r : JSValue) : Z :=
  match r with
  | JSFeaturesRef v => v
  | _ => 0
  end.

Definition set_ref (w : World) (r : RefId) (e : option Elem) : World :=
  mkWorld (dom w) (activeElement w)
    (match e with
     | Some x => <[ r := x ]> (refs w)
     | None => delete r (refs w)
     end).

(** [setup(props)]: a fresh [container] reference holding [null], options
    whose [initialFocus] is a fresh reference holding [props.initialFocus],
    and the call [useFocusTrap(container, FocusTrap.All, focusTrapOptions)]. *)
Definition FocusTrap_setup (w : World) (container initialFocusRef : RefId)
    (props_initialFocus : option Elem) : State :=
  let w1 := set_ref w container None in
  let w2 := set_ref w1 initialFocusRef props_initialFocus in
  useFocusTrap true w2 container
    (features_value (features_parameter (get_member FocusTrap "All")))
    (mkOptions 0 (Some initialFocusRef) None).

(** What happens to a session of the component from [setup] on: the
    renderer fills or empties the [container] reference, the mounted hook
    runs, window events arrive, the component is unmounted.  The reference
    [features] is created inside [useFocusTrap] and handed to nobody, so no
    step of the host writes it. *)
Inductive Step : Type :=
  | Render (el : option Elem)
  | Mounted
  | Window (e : Event)
  | Unmounted.

Definition perform (s : State) (a : Step) : State :=
  match a with
  | Render el => set_world s (set_ref (world s) (container s) el)
  | Mounted => state_of (onMounted s)
  | Window e =>
      match dispatch s e with
      | Normal s' => s'
      | Throw _ => s
      end
  | Unmounted => unmount s
  end.

Definition session (s : State) (steps : list Step) : State :=
  fold_left perform steps s.

(** ** Predicates on sessions *)

(** The arguments of [useFocusTrap], the trees of the document and the
    template references are the same in both states. *)
Definition same_session (s s' : State) : Prop :=
  container s' = container s /\
  features s' = features s /\
  options s' = options s /\
  dom (world s') = dom (world s) /\
  refs (world s') = refs (world s).

(** The restore target, the [mounted] flag and the registered cleanup are
    the same in both states. *)
Definition same_arming (s s' : State) : Prop :=
  restoreElement s' = restoreElement s /\
  mounted s' = mounted s /\
  invalidate s' = invalidate s.

(** No step of the list is the renderer writing the container reference. *)
Definition no_render (steps : list Step) : Prop :=
  Forall (fun a => match a with Render _ => False | _ => True end) steps.

(** The element passes the containment check against the allowed regions of
    the session. *)
Definition passes_check (s : State) (e : Elem) : bool :=
  match contains (world s) (allContainers s) e with
  | Normal b => b
  | Throw _ => false
  end.

(** The recorded element, if any, is inside an allowed region. *)
Definition recorded_focus_inside (s : State) : bool :=
  match previousActiveElement s with
  | Some p => passes_check s p
  | None => true
  end.

(** The recorded element, if any, is inside an allowed region or is the
    explicit initial-focus target. *)
Definition recorded_focus_valid (s : State) : bool :=
  match previousActiveElement s with
  | Some p => passes_check s p || same_element (initialFocus_value s) (Some p)
  | None => true
  end.

(** ** A sample page *)

Module Sample.
Local Open Scope nat_scope.

(** The body 0 holds the trap's container 1 with the buttons 2 and 3, a
    button 4 outside of it, and a focusable panel 5 whose only child is a
    caption 6 that is not focusable. *)
Definition page : list Node :=
  [ mkNode 0 false
      [ mkNode 1 false [ mkNode 2 true []; mkNode 3 true [] ];
        mkNode 4 true [];
        mkNode 5 true [ mkNode 6 false [] ] ] ].

Definition containerRef : RefId := 10.
Definition initialFocusRef : RefId := 11.

(** The page with focus on [active], before any component is set up. *)
Definition document (active : option Elem) : World := mkWorld page active ∅.

(** A [FocusTrap] rendered on [el] and mounted, with [props.initialFocus]
    as given and focus on [active] beforehand. *)
Definition mounted_trap (active : option Elem) (el : Elem)
    (props_initialFocus : option Elem) : State :=
  session
    (FocusTrap_setup (document active) containerRef initialFocusRef
       props_initialFocus)
    [Render (Some el); Mounted].

Definition focus_on (e : Elem) : FocusEvent :=
  mkFocusEvent (TargetHTMLElement e) false false.

Definition press (k : string) (shift : bool) : KeyboardEvent :=
  mkKeyboardEvent k shift false.

(** A [FocusTrap] rendered on [el], about to run its mounted hook. *)
Definition rendered_trap (active : option Elem) (el : Elem)
    (props_initialFocus : option Elem) : State :=
  session
    (FocusTrap_setup (document active) containerRef initialFocusRef
       props_initialFocus)
    [Render (Some el)].

(** A mounted session on the container 1 whose caller also allows the
    panel 5, through the reference 12. *)
Definition trap_with_extra_container : State :=
  mkState
    (mkWorld page (Some 2) (<[ 12 := 5 ]> (<[ containerRef := 1 ]> ∅)))
    containerRef Features.All (mkOptions 0 None (Some {[ 12 ]}))
    (Some 4) (Some 2) true true.
End Sample.

(** ** The [Combobox] component: the state and its mutators *)

Module Combobox.

Inductive ComboboxStates : Type := Open | Closed.

(** The members of [Focus] of utils/calculate-active-index that the
    component names. *)
Inductive Focus : Type := First | Previous | Next | Last | Specific | Nothing.

Definition Focus_eqb (a b : Focus) : bool :=
  match a, b with
  | First, First | Previous, Previous | Next, Next
  | Last, Last | Specific, Specific | Nothing, Nothing => true
  | _, _ => false
  end.

(** The argument [goToOption] builds for [calculateActiveIndex]: the
    request, with an [id] for [Focus.Specific] only. *)
Record Action : Type := mkAction { focus : Focus; action_id : option string }.

(** What an option registers about itself. *)
Record DataRef : Type := mkDataRef { disabled : bool; value : JSValue }.

(** An entry [{ id, dataRef }] of [options]; [object] is the identity of the
    object, which is what [indexOf] compares. *)
Record OptionEntry : Type := mkOption {
  object : nat;
  id : string;
  dataRef : DataRef
}.

(** The reactive state of [setup]: [props.disabled], the four references
    the mutators write, the text of the input element when it is mounted,
    the events emitted so far (latest first) and the number of option
    objects created so far. *)
Record State : Type := mkState {
  props_disabled : bool;
  ComboboxState : ComboboxStates;
  options : list OptionEntry;
  searchQuery : string;
  activeOptionIndex : option Z;
  input : option string;
  emitted : list (string * JSValue);
  allocated : nat
}.

Definition initial (props_disabled : bool) (input : option string) : State :=
  mkState props_disabled Closed [] "" None input [] 0.

Definition set_ComboboxState (s : State) (c : ComboboxStates) : State :=
  mkState (props_disabled s) c (options s) (searchQuery s)
    (activeOptionIndex s) (input s) (emitted s) (allocated s).

Definition set_activeOptionIndex (s : State) (i : option Z) : State :=
  mkState (props_disabled s) (ComboboxState s) (options s) (searchQuery s)
    i (input s) (emitted s) (allocated s).

Definition set_searchQuery (s : State) (q : string) : State :=
  mkState (props_disabled s) (ComboboxState s) (options s) q
    (activeOptionIndex s) (input s) (emitted s) (allocated s).

Definition set_options (s : State) (l : list OptionEntry) : State :=
  mkState (props_disabled s) (ComboboxState s) l (searchQuery s)
    (activeOptionIndex s) (input s) (emitted s) (allocated s).

Definition set_input (s : State) (v : option string) : State :=
  mkState (props_disabled s) (ComboboxState s) (options s) (searchQuery s)
    (activeOptionIndex s) v (emitted s) (allocated s).

Definition set_allocated (s : State) (n : nat) : State :=
  mkState (props_disabled s) (ComboboxState s) (options s) (searchQuery s)
    (activeOptionIndex s) (input s) (emitted s) n.

Definition set_props_disabled (s : State) (b : bool) : State :=
  mkState b (ComboboxState s) (options s) (searchQuery s)
    (activeOptionIndex s) (input s) (emitted s) (allocated s).

(** [emit(name, payload)] *)
Definition emit (s : State) (name : string) (payload : JSValue) : State :=
  mkState (props_disabled s) (ComboboxState s) (options s) (searchQuery s)
    (activeOptionIndex s) (input s) ((name, payload) :: emitted s) (allocated s).

Definition is_Closed (c : ComboboxStates) : bool :=
  match c with Closed => true | Open => false end.

Definition is_Open (c : ComboboxStates) : bool :=
  match c with Open => true | Closed => false end.

(** [a === b] on [number | null] *)
Definition same_index (a b : option Z) : bool :=
  match a, b with
  | Some x, Some y => x =? y
  | None, None => true
  | _, _ => false
  end.

(** *** Arrays *)

(** [arr[i]] for an integer [i]: [undefined] outside of the array. *)
Definition at_index (arr : list OptionEntry) (i : Z) : option OptionEntry :=
  if i <? 0 then None else nth_error arr (Z.to_nat i).

(** [arr.find(item => item.id === id)] *)
Definition find_by_id (arr : list OptionEntry) (id' : string) : option OptionEntry :=
  List.find (fun item => String.eqb (id item) id') arr.

(** [arr.findIndex(a => a.id === id)]: -1 when there is none. *)
Fixpoint findIndex_by_id (arr : list OptionEntry) (id' : string) : Z :=
  match arr with
  | [] => -1
  | a :: rest =>
      if String.eqb (id a) id' then 0
      else
        let i := findIndex_by_id rest id' in
        if i =? -1 then -1 else i + 1
  end.

(** [arr.indexOf(o)] for an object [o]: the first position holding that
    very object, -1 when there is none. *)
Fixpoint indexOf (arr : list OptionEntry) (o : nat) : Z :=
  match arr with
  | [] => -1
  | a :: rest =>
      if Nat.eqb (object a) o then 0
      else
        let i := indexOf rest o in
        if i =? -1 then -1 else i + 1
  end.

(** [arr.splice(idx, 1)] for [0 <= idx]: the array without the element at
    [idx]. *)
Fixpoint splice1 (arr : list OptionEntry) (idx : nat) : list OptionEntry :=
  match arr, idx with
  | [], _ => []
  | _ :: rest, O => rest
  | a :: rest, S n => a :: splice1 rest n
  end.

(** [arr.sort(compare)]: the sort is stable, and a comparator result that
    is [NaN] ([None]) counts as 0.  The order is fixed by this for every
    consistent comparator; for the others engines may differ. *)
Section Sort.
Variable compare : OptionEntry -> OptionEntry -> option Z.

Definition before (a z : OptionEntry) : bool :=
  match compare a z with
  | Some v => v <? 0
  | None => false
  end.

Fixpoint sort_insert (x : OptionEntry) (sorted : list OptionEntry)
    : list OptionEntry :=
  match sorted with
  | [] => [x]
  | y :: rest => if before x y then x :: y :: rest else y :: sort_insert x rest
  end.

Definition sort (arr : list OptionEntry) : list OptionEntry :=
  fold_left (fun sorted x => sort_insert x sorted) arr [].
End Sort.

(** *** The mutators of [api] *)

Definition closeCombobox (s : State) : State :=
  if props_disabled s then s
  else if is_Closed (ComboboxState s) then s
  else set_activeOptionIndex (set_ComboboxState s Closed) None.

Definition openCombobox (s : State) : State :=
  if props_disabled s then s
  else if is_Open (ComboboxState s) then s
  else set_ComboboxState s Open.

(** [calculateActiveIndex] of utils/calculate-active-index is not part of
    these sources; it is a parameter.  It is given the action, and through
    the resolvers the options (with their ids and [disabled] marks) and the
    active index. *)
Definition Calculate : Type :=
  Action -> list OptionEntry -> option Z -> option Z.

Definition goToOption (calculateActiveIndex : Calculate) (s : State)
    (focus : Focus) (id' : option string) : State :=
  if props_disabled s then s
  else if is_Closed (ComboboxState s) then s
  else
    let nextActiveOptionIndex :=
      calculateActiveIndex
        (if Focus_eqb focus Specific then mkAction Specific id'
         else mkAction focus None)
        (options s) (activeOptionIndex s) in
    if String.eqb (searchQuery s) "" &&
       same_index (activeOptionIndex s) nextActiveOptionIndex
    then s
    else set_activeOptionIndex (set_searchQuery s "") nextActiveOptionIndex.

(** The tail shared by [selectOption] and [selectActiveOption]: emit the
    value, and copy it to the input when it is a string and the input is
    mounted. *)
Definition emit_value (s : State) (d : DataRef) : State :=
  let s' := emit s "update:modelValue" (value d) in
  match value d, input s' with
  | JSString v, Some _ => set_input s' (Some v)
  | _, _ => s'
  end.

Definition selectOption (s : State) (id' : string) : State :=
  match find_by_id (options s) id' with
  | None => s
  | Some option => emit_value s (dataRef option)
  end.

(** Destructuring [undefined] throws. *)
Definition selectActiveOption (s : State) : Completion State :=
  match activeOptionIndex s with
  | None => Normal s
  | Some i =>
      match at_index (options s) i with
      | Some option => Normal (emit_value s (dataRef option))
      | None => Throw "TypeError: Cannot destructure property 'dataRef'"
      end
  end.

(** The object built by [reduce]: each id with the index of the last
    queried element that has it. *)
Fixpoint orderMap_from (index : nat) (elements : list string)
    (lookup : gmap string nat) : gmap string nat :=
  match elements with
  | [] => lookup
  | element_id :: rest => orderMap_from (S index) rest (<[ element_id := index ]> lookup)
  end.

Definition orderMap (queried : option (list string)) : gmap string nat :=
  orderMap_from 0 (default [] queried) ∅.

(** [orderMap[a.id] - orderMap[z.id]]: [NaN] when either id is missing. *)
Definition compare_order (m : gmap string nat) (a z : OptionEntry) : option Z :=
  match m !! id a, m !! id z with
  | Some x, Some y => Some (Z.of_nat x - Z.of_nat y)
  | _, _ => None
  end.

(** [queried] is what [querySelectorAll] finds under the options element:
    the ids of the option elements in document order, or nothing at all
    when that element is not mounted. *)
Definition registerOption (s : State) (queried : option (list string))
    (id' : string) (d : DataRef) : State :=
  let m := orderMap queried in
  let entry := mkOption (allocated s) id' d in
  set_options (set_allocated s (S (allocated s)))
    (sort (compare_order m) (options s ++ [entry])).

(** [currentActiveOption]: [null], [undefined] or an option. *)
Inductive Current : Type :=
  | CurrentNull
  | CurrentUndefined
  | CurrentOption (o : OptionEntry).

Definition unregisterOption (s : State) (id' : string) : State :=
  let nextOptions := options s in
  let currentActiveOption :=
    match activeOptionIndex s with
    | Some i =>
        match at_index nextOptions i with
        | Some o => CurrentOption o
        | None => CurrentUndefined
        end
    | None => CurrentNull
    end in
  let idx := findIndex_by_id nextOptions id' in
  let nextOptions :=
    if idx =? -1 then nextOptions else splice1 nextOptions (Z.to_nat idx) in
  set_activeOptionIndex (set_options s nextOptions)
    (if same_index (Some idx) (activeOptionIndex s) then None
     else
       match currentActiveOption with
       | CurrentNull => None
       | CurrentUndefined => Some (-1)
       | CurrentOption o => Some (indexOf nextOptions (object o))
       end).

Definition select (s : State) (v : JSValue) : State :=
  if props_disabled s then s else emit s "update:modelValue" v.

(** *** Sequences of calls *)

Inductive Call : Type :=
  | CloseCombobox
  | OpenCombobox
  | GoToOption (focus : Focus) (id' : option string)
  | SelectOption (id' : string)
  | SelectActiveOption
  | RegisterOption (queried : option (list string)) (id' : string) (d : DataRef)
  | UnregisterOption (id' : string)
  | Select (v : JSValue)
  | PropsDisabled (b : bool).

(** A call of a mutator, or the parent changing [props.disabled]. *)
Definition call (calculateActiveIndex : Calculate) (s : State) (c : Call)
    : Completion State :=
  match c with
  | CloseCombobox => Normal (closeCombobox s)
  | OpenCombobox => Normal (openCombobox s)
  | GoToOption focus id' => Normal (goToOption calculateActiveIndex s focus id')
  | SelectOption id' => Normal (selectOption s id')
  | SelectActiveOption => selectActiveOption s
  | RegisterOption queried id' d => Normal (registerOption s queried id' d)
  | UnregisterOption id' => Normal (unregisterOption s id')
  | Select v => Normal (select s v)
  | PropsDisabled b => Normal (set_props_disabled s b)
  end.

Fixpoint calls (calculateActiveIndex : Calculate) (s : State) (cs : list Call)
    : Completion State :=
  match cs with
  | [] => Normal s
  | c :: rest =>
      match call calculateActiveIndex s c with
      | Normal s' => calls calculateActiveIndex s' rest
      | Throw m => Throw m
      end
  end.

(** *** Predicates *)

(** A closed combobox has no active option. *)
Definition closed_inactive (s : State) : Prop :=
  ComboboxState s = Closed -> activeOptionIndex s = None.

(** The active index, when there is one, is a position of [options]. *)
Definition index_in_range (s : State) : Prop :=
  forall i, activeOptionIndex s = Some i ->
            0 <= i < Z.of_nat (List.length (options s)).

(** What the component relies on from [calculateActiveIndex]: its answer is
    [null], the active index it was given, or a position of the items. *)
Definition calculate_in_range (calculateActiveIndex : Calculate) : Prop :=
  forall action items active,
    calculateActiveIndex action items active = None \/
    calculateActiveIndex action items active = active \/
    exists i, calculateActiveIndex action items active = Some i /\
              0 <= i < Z.of_nat (List.length items).

(** The index [orderMap] gives to the id of an option (0 for a missing
    id). *)
Definition position (queried : option (list string)) (e : OptionEntry) : nat :=
  default 0%nat (orderMap queried !! id e).

(** The option objects are distinct and were all created by this state. *)
Definition distinct_objects (s : State) : Prop :=
  NoDup (List.map object (options s)) /\
  Forall (fun o => (object o < allocated s)%nat) (options s).

End Combobox.

(** * Properties *)

(** Closes a goal between closed terms by evaluating both sides. *)
Ltac evaluate := vm_compute; reflexivity.

(** ** The model on the sample page *)

(** Mounting a trap on the container 1 while the outside button 4 is focused
    moves focus to the first button and remembers the button 4. *)
Example mounted_trap_first_button :
  let s := Sample.mounted_trap (Some 4%nat) 1%nat None in
  (document_activeElement s, previousActiveElement s, restoreElement s, mounted s)
  = (Some 2%nat, Some 2%nat, Some 4%nat, true).
Proof. evaluate. Qed.

(** Tab from the last button wraps to the first, Shift+Tab from the first to
    the last. *)
Example tab_wraps_around :
  activeElement
    (snd (focusIn (set_active (Sample.document None) (Some 3%nat)) 1%nat
            (with_WrapAround Next))) = Some 2%nat /\
  activeElement
    (snd (focusIn (set_active (Sample.document None) (Some 2%nat)) 1%nat
            (with_WrapAround Previous))) = Some 3%nat.
Proof. split; evaluate. Qed.

(** Unmounting gives focus back to the button 4, once. *)
Example unmount_restores :
  let s := unmount (Sample.mounted_trap (Some 4%nat) 1%nat None) in
  (document_activeElement s, restoreElement s, mounted s, invalidate s)
  = (Some 4%nat, None, false, false).
Proof. evaluate. Qed.

(** ** The document *)

Lemma lookup_node_nid (d : list Node) (e : Elem) (n : Node) :
  lookup_node d e = Some n -> nid n = e.
Proof.
  unfold lookup_node. intros H. apply find_some in H as [_ H].
  now apply Nat.eqb_eq in H.
Qed.

Lemma subtree_self (n : Node) : In n (subtree n).
Proof. destruct n; simpl; auto. Qed.

Lemma descendants_subtree (n m : Node) : In m (descendants n) -> In m (subtree n).
Proof. destruct n; unfold descendants; simpl; auto. Qed.

(** A node contains itself. *)
Lemma node_contains_refl (d : list Node) (a : Elem) :
  node_contains d a (Some a) = true.
Proof.
  unfold node_contains. destruct (lookup_node d a) as [n|] eqn:E.
  - apply existsb_exists. exists n. split; [apply subtree_self|].
    apply Nat.eqb_eq. eapply lookup_node_nid; eauto.
  - apply Nat.eqb_refl.
Qed.

(** What the traversal enumerates inside a root is contained in the root. *)
Lemma focusable_descendants_contained (d : list Node) (c e : Elem) :
  In e (focusable_descendants d c) -> node_contains d c (Some e) = true.
Proof.
  unfold focusable_descendants, node_contains.
  destruct (lookup_node d c) as [n|]; [|intros []].
  intros H. apply in_map_iff in H as (m & Hm & Hin).
  apply filter_In in Hin as [Hin _].
  apply existsb_exists. exists m. split.
  - now apply descendants_subtree.
  - now apply Nat.eqb_eq.
Qed.

(** ** The traversal *)

(** [focusIn] never changes the trees or the references, and on the
    not-found signal it changes nothing. *)
Lemma focusIn_frame (w : World) (root : Elem) (f : Focus) :
  dom (snd (focusIn w root f)) = dom w /\
  refs (snd (focusIn w root f)) = refs w /\
  (fst (focusIn w root f) = Error -> snd (focusIn w root f) = w).
Proof.
  unfold focusIn.
  destruct (_ =? 0); [simpl; auto|].
  destruct (_ || _); [simpl; auto|].
  destruct (nth_error _ _); simpl; auto.
  repeat split; auto. discriminate.
Qed.

(** On success the focused element is one of the focusable descendants of
    the root. *)
Lemma focusIn_Success (w : World) (root : Elem) (f : Focus) :
  fst (focusIn w root f) = Success ->
  exists e, activeElement (snd (focusIn w root f)) = Some e /\
            In e (focusable_descendants (dom w) root).
Proof.
  unfold focusIn.
  destruct (_ =? 0); [discriminate|].
  destruct (_ || _); [discriminate|].
  destruct (nth_error _ _) as [e|] eqn:E; [|discriminate].
  intros _. exists e. split; [reflexivity|]. eapply nth_error_In; eauto.
Qed.

(** With no focusable descendant the answer is the not-found signal and
    nothing moves. *)
Lemma focusIn_empty (w : World) (root : Elem) (f : Focus) :
  focusable_descendants (dom w) root = [] -> focusIn w root f = (Error, w).
Proof. unfold focusIn. intros ->. reflexivity. Qed.

(** With wrap-around and at least one focusable descendant the traversal
    succeeds. *)
Lemma focusIn_WrapAround (w : World) (root : Elem) (d : FocusDirection) :
  focusable_descendants (dom w) root <> [] ->
  fst (focusIn w root (with_WrapAround d)) = Success.
Proof.
  unfold focusIn. intros Hne.
  set (els := focusable_descendants (dom w) root) in *.
  assert (Hlen : 0 < Z.of_nat (List.length els)).
  { destruct els; [congruence|]. simpl List.length. lia. }
  destruct (Z.eqb_spec (Z.of_nat (List.length els)) 0); [lia|].
  simpl wrapAround. cbv iota.
  set (i := target_index _ _ _).
  pose proof (Z.mod_pos_bound i _ Hlen) as Hb.
  destruct (Z.ltb_spec (i mod Z.of_nat (List.length els)) 0); [lia|].
  destruct (Z.leb_spec (Z.of_nat (List.length els)) (i mod Z.of_nat (List.length els))); [lia|].
  simpl orb. cbv iota.
  destruct (nth_error els _) eqn:E; [reflexivity|].
  apply nth_error_None in E. lia.
Qed.

(** ** The containment check *)

Lemma contains_loop_spec (w : World) (rs : list RefId) (element : Elem) :
  exists b, contains_loop w rs element = Normal b /\
    (b = true <->
     exists r c, r ∈ rs /\ refs w !! r = Some c /\
                 node_contains (dom w) c (Some element) = true).
Proof.
  induction rs as [|r rs IH]; cbn [contains_loop].
  - exists false. split; [reflexivity|]. split; [discriminate|].
    intros (r & c & Hr & _). inversion Hr.
  - destruct (refs w !! r) as [c|] eqn:Er; cbn [optional_contains].
    + destruct (node_contains (dom w) c (Some element)) eqn:Ec.
      * exists true. split; [reflexivity|]. split; [|reflexivity].
        intros _. exists r, c. split; [left|]; auto.
      * destruct IH as (b & Hb & Hiff). exists b. split; [exact Hb|].
        rewrite Hiff. split.
        -- intros (r' & c' & Hin & H1 & H2). exists r', c'. split; [right|]; auto.
        -- intros (r' & c' & Hin & H1 & H2). exists r', c'.
           apply elem_of_cons in Hin as [->|Hin]; [congruence|auto].
    + destruct IH as (b & Hb & Hiff). exists b. split; [exact Hb|].
      rewrite Hiff. split.
      * intros (r' & c' & Hin & H1 & H2). exists r', c'. split; [right|]; auto.
      * intros (r' & c' & Hin & H1 & H2). exists r', c'.
        apply elem_of_cons in Hin as [->|Hin]; [congruence|auto].
Qed.

Lemma contains_spec (w : World) (regions : gset RefId) (element : Elem) :
  exists b, contains w regions element = Normal b /\
    (b = true <->
     exists r c, r ∈ regions /\ refs w !! r = Some c /\
                 node_contains (dom w) c (Some element) = true).
Proof.
  unfold contains.
  destruct (contains_loop_spec w (elements regions) element) as (b & Hb & Hiff).
  exists b. split; [exact Hb|]. rewrite Hiff.
  split; intros (r & c & Hin & H); exists r, c; split; auto;
    now apply elem_of_elements.
Qed.

(** The check reads the trees and the references only. *)
Lemma contains_same_document (w w' : World) (regions : gset RefId) (element : Elem) :
  dom w' = dom w -> refs w' = refs w ->
  contains w' regions element = contains w regions element.
Proof.
  unfold contains. intros Hd Hr.
  induction (elements regions) as [|r rs IH]; cbn [contains_loop]; [reflexivity|].
  unfold optional_contains. rewrite Hd, Hr, IH. reflexivity.
Qed.

Lemma container_in_allContainers (s : State) : container s ∈ allContainers s.
Proof. unfold allContainers. set_solver. Qed.

Lemma allContainers_size (s : State) : Nat.eqb (size (allContainers s)) 0 = false.
Proof.
  apply Nat.eqb_neq. intros H. apply size_empty_iff in H.
  generalize (container_in_allContainers s). rewrite H. apply not_elem_of_empty.
Qed.

(** An element inside the trap's own mounted container passes the check. *)
Lemma contains_own_container (s : State) (c element : Elem) :
  container_value s = Some c ->
  node_contains (dom (world s)) c (Some element) = true ->
  contains (world s) (allContainers s) element = Normal true.
Proof.
  intros Hc Hin.
  destruct (contains_spec (world s) (allContainers s) element) as (b & Hb & Hiff).
  rewrite Hb. f_equal. apply Hiff.
  exists (container s), c. split; [apply container_in_allContainers|]. auto.
Qed.

(** A plain member call on an unmounted region would throw; the optional
    chaining of [contains] is what skips it. *)
Remark member_contains_null (w : World) (element : Elem) :
  member_contains w None element = Throw "TypeError: Cannot read properties of null" /\
  optional_contains w None element = Normal None.
Proof. split; reflexivity. Qed.

(** C10: in the focus handler the allowed-region set holds the trap's own
    container reference whatever the options are, so its size is never 0 and
    the branch that returns on an empty set is never taken.  The containment
    check always completes normally with a boolean: it is [true] exactly when
    some reference of the set resolves to an element that contains the
    candidate, hence [false] when no resolvable region does, and a reference
    that resolves to [null] is skipped. *)
Theorem allContainers_nonempty_and_contains_total
    (s : State) (regions : gset RefId) (element : Elem) :
  container s ∈ allContainers s /\
  Nat.eqb (size (allContainers s)) 0 = false /\
  (exists b, contains (world s) regions element = Normal b /\
     (b = true <->
      exists r c, r ∈ regions /\ refs (world s) !! r = Some c /\
                  node_contains (dom (world s)) c (Some element) = true)) /\
  (forall r, refs (world s) !! r = None ->
     contains (world s) ({[ r ]} ∪ regions) element =
     contains (world s) regions element).
Proof.
  split; [apply container_in_allContainers|].
  split; [apply allContainers_size|].
  split; [apply contains_spec|].
  intros r Hr.
  destruct (contains_spec (world s) ({[ r ]} ∪ regions) element) as (b1 & E1 & I1).
  destruct (contains_spec (world s) regions element) as (b2 & E2 & I2).
  rewrite E1, E2. f_equal.
  apply eq_true_iff_eq. rewrite I1, I2.
  split; intros (r' & c & Hin & Hv & Hc); exists r', c; repeat split; auto.
  - apply elem_of_union in Hin as [Hin|Hin]; [|exact Hin].
    apply elem_of_singleton in Hin. subst r'. congruence.
  - apply elem_of_union. now right.
Qed.

Lemma allContainers_nonempty_and_contains_total_witness :
  contains (world (Sample.mounted_trap (Some 4%nat) 1%nat None))
    ({[ 12%nat ]} ∪ {[ Sample.containerRef ]}) 2%nat =
  contains (world (Sample.mounted_trap (Some 4%nat) 1%nat None))
    {[ Sample.containerRef ]} 2%nat.
Proof.
  destruct (allContainers_nonempty_and_contains_total
              (Sample.mounted_trap (Some 4%nat) 1%nat None)
              {[ Sample.containerRef ]} 2%nat) as (_ & _ & _ & H).
  apply H. vm_compute. reflexivity.
Defined.

(** ** The feature flags *)

Lemma has_lor (a b F : Z) :
  Features.has (Z.lor a b) F = Features.has a F || Features.has b F.
Proof.
  unfold Features.has. rewrite Z.land_lor_distr_l.
  destruct (Z.eqb_spec (Z.land a F) 0) as [Ha|Ha];
  destruct (Z.eqb_spec (Z.land b F) 0) as [Hb|Hb];
  destruct (Z.eqb_spec (Z.lor (Z.land a F) (Z.land b F)) 0) as [Hc|Hc];
    try reflexivity; exfalso.
  - apply Hc. apply Z.lor_eq_0_iff. auto.
  - apply Z.lor_eq_0_iff in Hc. tauto.
  - apply Z.lor_eq_0_iff in Hc. tauto.
  - apply Z.lor_eq_0_iff in Hc. tauto.
Qed.

Lemma has_union (fs : list Z) (F : Z) :
  Features.has (Features.union fs) F = existsb (fun f => Features.has f F) fs.
Proof.
  induction fs as [|f fs IH]; [reflexivity|].
  cbn [Features.union fold_right existsb]. fold (Features.union fs).
  now rewrite has_lor, IH.
Qed.

(** Between two flags the test by [&] is equality. *)
Lemma has_flag (f F : Z) :
  In f Features.flags -> In F Features.flags ->
  (Features.has f F = true <-> f = F).
Proof.
  unfold Features.flags. simpl In.
  intros Hf HF.
  repeat (destruct Hf as [<-|Hf]; [|]); try contradiction;
  repeat (destruct HF as [<-|HF]; [|]); try contradiction;
  vm_compute; split; congruence.
Qed.

(** The claim that [None] is 0 fails: [None] is [1 << 0]. *)
Lemma Features_None_is_not_zero : Features.None <> 0.
Proof. vm_compute. discriminate. Qed.

(** C8 (as the code has it): [None] is 1, the bit 0, which none of the four
    flags uses, so it enables nothing; [All] is the union of [InitialFocus],
    [TabLock], [FocusLock] and [RestoreFocus]; these four are the distinct
    single bits 1 to 4; and on any union of them, with or without [None],
    the test by bitwise AND is membership. *)
Theorem Features_bitset (fs : list Z) (F : Z) :
  Forall (fun f => In f Features.flags) fs ->
  In F Features.flags ->
  Features.None = 1 /\
  Features.has Features.None F = false /\
  Features.All = Features.union Features.flags /\
  Features.flags = [2 ^ 1; 2 ^ 2; 2 ^ 3; 2 ^ 4] /\
  NoDup Features.flags /\
  Features.has Features.All F = true /\
  (Features.has (Features.union fs) F = true <-> In F fs) /\
  Features.has (Z.lor Features.None (Features.union fs)) F =
    Features.has (Features.union fs) F.
Proof.
  intros Hfs HF.
  assert (HNone : Features.has Features.None F = false).
  { unfold Features.flags in HF. simpl In in HF.
    repeat (destruct HF as [<-|HF]; [reflexivity|]). contradiction. }
  split; [reflexivity|]. split; [exact HNone|].
  split; [reflexivity|]. split; [reflexivity|].
  split.
  { unfold Features.flags. repeat constructor; intros H;
      apply list_elem_of_In in H; simpl in H;
      repeat (destruct H as [H|H]; [vm_compute in H; discriminate|]); exact H. }
  split.
  { unfold Features.flags in HF. simpl In in HF.
    repeat (destruct HF as [<-|HF]; [reflexivity|]). contradiction. }
  split.
  - rewrite has_union. rewrite existsb_exists. split.
    + intros (f & Hin & Hhas).
      assert (Hf : In f Features.flags).
      { rewrite Forall_forall in Hfs. apply Hfs. now apply list_elem_of_In. }
      apply has_flag in Hhas; auto. now subst.
    + intros Hin. exists F. split; [exact Hin|]. now apply has_flag.
  - now rewrite has_lor, HNone.
Qed.

Lemma Features_bitset_witness :
  Features.has
    (Features.union [Features.TabLock; Features.RestoreFocus])
    Features.TabLock = true <->
  In Features.TabLock [Features.TabLock; Features.RestoreFocus].
Proof.
  apply (Features_bitset [Features.TabLock; Features.RestoreFocus] Features.TabLock).
  - repeat constructor; simpl; tauto.
  - simpl; tauto.
Defined.

(** ** The focus handler *)

(** C2: with [FocusLock] enabled, [previousActiveElement] recorded as [A] and
    the session mounted, a focus event whose target [B] fails the containment
    check has its default effect and its propagation cancelled and focus
    forced back to [A], [previousActiveElement] staying [A]; a target [B]
    that passes the check becomes [previousActiveElement] and is focused
    again, the event being left alone; with no recorded element or an
    unmounted session the handler changes nothing. *)
Theorem focus_handler_escape_attempt
    (s : State) (event : FocusEvent) (A B : Elem) :
  Features.has (features s) Features.FocusLock = true ->
  (previousActiveElement s = Some A -> mounted s = true ->
   target event = TargetHTMLElement B ->
     (contains (world s) (allContainers s) B = Normal false ->
        focus_handler s event =
          Normal (set_world s (set_active (world s) (Some A)),
                  mkFocusEvent (target event) true true)) /\
     (contains (world s) (allContainers s) B = Normal true ->
        focus_handler s event =
          Normal (set_world (set_previousActiveElement s (Some B))
                    (set_active (world s) (Some B)),
                  event))) /\
  (previousActiveElement s = None \/ mounted s = false ->
     focus_handler s event = Normal (s, event)).
Proof.
  intros HF. unfold focus_handler. rewrite HF, allContainers_size.
  cbn [negb]. cbv iota. split.
  - intros HA Hm HB. rewrite HA, Hm, HB. cbn [negb]. cbv iota.
    split; intros ->; unfold stopPropagation, preventDefault;
      cbn [target defaultPrevented propagationStopped]; rewrite ?HB; reflexivity.
  - intros [Hp|Hm].
    + now rewrite Hp.
    + rewrite Hm. now destruct (previousActiveElement s).
Qed.

Lemma focus_handler_escape_attempt_witness :
  focus_handler (Sample.mounted_trap (Some 4%nat) 1%nat None) (Sample.focus_on 4%nat) =
    Normal
      (set_world (Sample.mounted_trap (Some 4%nat) 1%nat None)
         (set_active (world (Sample.mounted_trap (Some 4%nat) 1%nat None)) (Some 2%nat)),
       mkFocusEvent (TargetHTMLElement 4%nat) true true).
Proof.
  assert (HF : Features.has
                 (features (Sample.mounted_trap (Some 4%nat) 1%nat None))
                 Features.FocusLock = true) by (vm_compute; reflexivity).
  destruct (focus_handler_escape_attempt
              (Sample.mounted_trap (Some 4%nat) 1%nat None)
              (Sample.focus_on 4%nat) 2%nat 4%nat HF) as [H _].
  assert (HA : previousActiveElement (Sample.mounted_trap (Some 4%nat) 1%nat None)
               = Some 2%nat) by (vm_compute; reflexivity).
  assert (Hm : mounted (Sample.mounted_trap (Some 4%nat) 1%nat None) = true)
    by (vm_compute; reflexivity).
  destruct (H HA Hm eq_refl) as [Hout _].
  apply Hout. vm_compute. reflexivity.
Defined.

(** ** The keydown handler *)

(** C6: on a key-down event nothing happens when [TabLock] is disabled, when
    no container is mounted, or when the key is not Tab.  Otherwise the
    default behaviour is suppressed whatever follows: the event ends with
    [keyDefaultPrevented] set, its key and modifier as they were; the
    traversal is asked for the previous focusable element when Shift is held
    and for the next one when it is not, with wrap-around; the document is
    left as the traversal leaves it; [previousActiveElement] becomes the
    element focused after the move when the traversal reports success and is
    untouched when it does not; and with no focusable element in the
    container nothing changes but the event, which is still suppressed. *)
Theorem keydown_handler_tab (s : State) (event : KeyboardEvent) :
  (Features.has (features s) Features.TabLock = false \/
   container_value s = None \/ key event <> Keys_Tab ->
     keydown_handler s event = (s, event)) /\
  (forall c,
     Features.has (features s) Features.TabLock = true ->
     container_value s = Some c ->
     key event = Keys_Tab ->
     let request := mkFocus (if shiftKey event then Previous else Next) true in
     let result := focusIn (world s) c request in
     keyDefaultPrevented (snd (keydown_handler s event)) = true /\
     snd (keydown_handler s event) =
       mkKeyboardEvent (key event) (shiftKey event) true /\
     fst (keydown_handler s event) =
       set_previousActiveElement (set_world s (snd result))
         (match fst result with
          | Success => activeElement (snd result)
          | Error => previousActiveElement s
          end) /\
     (focusable_descendants (dom (world s)) c = [] ->
        keydown_handler s event =
          (s, mkKeyboardEvent (key event) (shiftKey event) true))).
Proof.
  split.
  - intros [H|[H|H]]; unfold keydown_handler.
    + now rewrite H.
    + rewrite H. now destruct (negb _).
    + destruct (negb _); [reflexivity|].
      destruct (container_value s); [|reflexivity].
      destruct (String.eqb_spec (key event) Keys_Tab); [contradiction|reflexivity].
  - intros c HT Hc Hk request result. unfold keydown_handler.
    rewrite HT, Hc, String.eqb_sym, <- Hk, String.eqb_refl. cbn [negb]. cbv iota.
    unfold with_WrapAround. fold request. fold result.
    split; [now destruct result as [[|] w']|].
    split; [now destruct result as [[|] w']|].
    split; [destruct result as [[|] w']; destruct s; reflexivity|].
    intros Hempty. subst result.
    rewrite (focusIn_empty _ _ request Hempty). now destruct s as [[]].
Qed.

Lemma keydown_handler_tab_witness :
  keyDefaultPrevented
    (snd (keydown_handler (Sample.mounted_trap (Some 4%nat) 1%nat None)
            (Sample.press "Tab" true))) = true /\
  snd (keydown_handler (Sample.mounted_trap (Some 4%nat) 1%nat None)
         (Sample.press "Tab" true)) =
    mkKeyboardEvent "Tab" true true /\
  previousActiveElement
    (fst (keydown_handler (Sample.mounted_trap (Some 4%nat) 1%nat None)
            (Sample.press "Tab" true))) = Some 3%nat.
Proof.
  destruct (keydown_handler_tab (Sample.mounted_trap (Some 4%nat) 1%nat None)
              (Sample.press "Tab" true)) as [_ H].
  assert (HT : Features.has
                 (features (Sample.mounted_trap (Some 4%nat) 1%nat None))
                 Features.TabLock = true) by (vm_compute; reflexivity).
  assert (Hc : container_value (Sample.mounted_trap (Some 4%nat) 1%nat None)
               = Some 1%nat) by (vm_compute; reflexivity).
  destruct (H 1%nat HT Hc eq_refl) as (H0 & H1 & H2 & _).
  split; [exact H0|]. split; [exact H1|]. rewrite H2. vm_compute. reflexivity.
Defined.

(** ** The initial-focus watcher *)

Lemma same_element_true (a b : option Elem) : same_element a b = true <-> a = b.
Proof.
  destruct a as [x|], b as [y|]; simpl; split; try congruence; try reflexivity.
  - intros H. apply Nat.eqb_eq in H. congruence.
  - intros [= ->]. apply Nat.eqb_refl.
Qed.

Section Activation.

(** A run of the watcher that gets past its guards: the observed values
    changed, [InitialFocus] is enabled and the container is mounted on [c]. *)
Variables (s : State) (newValues prevValues : list WVal) (c : Elem).
Hypothesis values_changed : unchanged newValues prevValues = false.
Hypothesis initial_focus_enabled : featuresInitialFocus s = true.
Hypothesis container_mounted : container_value s = Some c.

Lemma initial_focus_watcher_activated :
  initial_focus_watcher newValues prevValues s =
    let activeElement := document_activeElement s in
    let already :=
      match initialFocus_value s with
      | Some target => same_element (Some target) activeElement
      | None => node_contains (dom (world s)) c activeElement
      end in
    if already then Returned (set_previousActiveElement s activeElement)
    else
      match initialFocus_value s with
      | Some target =>
          let s' := set_world s (focusElement (world s) (Some target)) in
          Returned (set_previousActiveElement s' (document_activeElement s'))
      | None =>
          match focusIn (world s) c (mkFocus First false) with
          | (Error, w') => Threw no_focusable_elements (set_world s w')
          | (Success, w') =>
              let s' := set_world s w' in
              Returned (set_previousActiveElement s' (document_activeElement s'))
          end
      end.
Proof.
  unfold initial_focus_watcher.
  now rewrite values_changed, initial_focus_enabled, container_mounted.
Qed.

(** C3: when the watcher runs with [InitialFocus] enabled and a mounted
    container, (i) an explicit initial-focus target that is already the
    focused element is recorded as [previousActiveElement] and focus does not
    move; (ii) with no explicit target and focus already inside the
    container, the focused element is recorded and focus does not move;
    (iii) an explicit target that is not the focused element receives focus,
    wherever focus was, and is recorded; and whenever the watcher returns,
    [previousActiveElement] is the element focused at that moment. *)
Theorem initial_focus_precedence :
  (forall t, initialFocus_value s = Some t ->
     document_activeElement s = Some t ->
     initial_focus_watcher newValues prevValues s =
       Returned (set_previousActiveElement s (Some t))) /\
  (initialFocus_value s = None ->
     node_contains (dom (world s)) c (document_activeElement s) = true ->
     initial_focus_watcher newValues prevValues s =
       Returned (set_previousActiveElement s (document_activeElement s))) /\
  (forall t, initialFocus_value s = Some t ->
     document_activeElement s <> Some t ->
     initial_focus_watcher newValues prevValues s =
       Returned (set_previousActiveElement
                   (set_world s (set_active (world s) (Some t))) (Some t))) /\
  (forall s', initial_focus_watcher newValues prevValues s = Returned s' ->
     previousActiveElement s' = document_activeElement s').
Proof.
  rewrite initial_focus_watcher_activated. cbv zeta.
  split; [|split; [|split]].
  - intros t Ht Ha. rewrite Ht, Ha.
    replace (same_element (Some t) (Some t)) with true
      by (symmetry; now apply same_element_true).
    reflexivity.
  - intros Ht Hin. now rewrite Ht, Hin.
  - intros t Ht Ha. rewrite Ht.
    destruct (same_element (Some t) (document_activeElement s)) eqn:E.
    + apply same_element_true in E. congruence.
    + reflexivity.
  - intros s'. destruct (initialFocus_value s) as [t|].
    + destruct (same_element _ _); intros [= <-]; reflexivity.
    + destruct (node_contains _ _ _); [intros [= <-]; reflexivity|].
      destruct (focusIn _ _ _) as [[|] w']; [discriminate|].
      intros [= <-]. reflexivity.
Qed.

(** C4 (as the code has it): when the watcher runs with [InitialFocus]
    enabled on a mounted container with no focusable descendant, no explicit
    initial-focus target, and the focused element not already inside the
    container, it throws the configuration error and leaves focus and every
    variable as they were; with an explicit initial-focus target it returns
    without that error. *)
Theorem empty_container_failure :
  focusable_descendants (dom (world s)) c = [] ->
  (initialFocus_value s = None ->
     node_contains (dom (world s)) c (document_activeElement s) = false ->
     initial_focus_watcher newValues prevValues s = Threw no_focusable_elements s) /\
  (forall t, initialFocus_value s = Some t ->
     exists s', initial_focus_watcher newValues prevValues s = Returned s').
Proof.
  intros Hempty. rewrite initial_focus_watcher_activated. cbv zeta. split.
  - intros Ht Hout. rewrite Ht, Hout.
    rewrite (focusIn_empty _ _ _ Hempty). now destruct s.
  - intros t Ht. rewrite Ht. destruct (same_element _ _); eauto.
Qed.

End Activation.

Lemma initial_focus_precedence_witness :
  initial_focus_watcher
    (initial_focus_sources (Sample.rendered_trap (Some 2%nat) 1%nat (Some 3%nat))) []
    (Sample.rendered_trap (Some 2%nat) 1%nat (Some 3%nat)) =
  Returned
    (set_previousActiveElement
       (set_world (Sample.rendered_trap (Some 2%nat) 1%nat (Some 3%nat))
          (set_active (world (Sample.rendered_trap (Some 2%nat) 1%nat (Some 3%nat)))
             (Some 3%nat)))
       (Some 3%nat)).
Proof.
  assert (Hu : unchanged
                 (initial_focus_sources
                    (Sample.rendered_trap (Some 2%nat) 1%nat (Some 3%nat))) []
               = false) by (vm_compute; reflexivity).
  assert (Hf : featuresInitialFocus
                 (Sample.rendered_trap (Some 2%nat) 1%nat (Some 3%nat)) = true)
    by (vm_compute; reflexivity).
  assert (Hc : container_value
                 (Sample.rendered_trap (Some 2%nat) 1%nat (Some 3%nat)) = Some 1%nat)
    by (vm_compute; reflexivity).
  destruct (initial_focus_precedence _ _ _ 1%nat Hu Hf Hc) as (_ & _ & H & _).
  apply H.
  - vm_compute. reflexivity.
  - vm_compute. discriminate.
Defined.

(** The claim of an error on every empty container fails: a focusable panel
    with no focusable descendant that already holds focus is a container in
    which focus already is, so the watcher records it and returns. *)
Lemma empty_container_already_focused_returns :
  featuresInitialFocus (Sample.rendered_trap (Some 5%nat) 5%nat None) = true /\
  container_value (Sample.rendered_trap (Some 5%nat) 5%nat None) = Some 5%nat /\
  focusable_descendants
    (dom (world (Sample.rendered_trap (Some 5%nat) 5%nat None))) 5%nat = [] /\
  initialFocus_value (Sample.rendered_trap (Some 5%nat) 5%nat None) = None /\
  onMounted (Sample.rendered_trap (Some 5%nat) 5%nat None) =
    Returned
      (set_previousActiveElement
         (set_invalidate
            (set_mounted (Sample.rendered_trap (Some 5%nat) 5%nat None) true) true)
         (Some 5%nat)).
Proof. repeat split; evaluate. Qed.

Lemma empty_container_failure_witness :
  initial_focus_watcher
    (initial_focus_sources (Sample.rendered_trap (Some 4%nat) 5%nat None)) []
    (Sample.rendered_trap (Some 4%nat) 5%nat None) =
  Threw no_focusable_elements (Sample.rendered_trap (Some 4%nat) 5%nat None).
Proof.
  assert (Hu : unchanged
                 (initial_focus_sources
                    (Sample.rendered_trap (Some 4%nat) 5%nat None)) []
               = false) by (vm_compute; reflexivity).
  assert (Hf : featuresInitialFocus
                 (Sample.rendered_trap (Some 4%nat) 5%nat None) = true)
    by (vm_compute; reflexivity).
  assert (Hc : container_value
                 (Sample.rendered_trap (Some 4%nat) 5%nat None) = Some 5%nat)
    by (vm_compute; reflexivity).
  assert (He : focusable_descendants
                 (dom (world (Sample.rendered_trap (Some 4%nat) 5%nat None))) 5%nat
               = []) by (vm_compute; reflexivity).
  destruct (empty_container_failure _ _ _ 5%nat Hu Hf Hc He) as [H _].
  apply H; vm_compute; reflexivity.
Defined.

(** ** Restoring focus *)

(** C5: fired on a session whose [mounted] flag is set, the restore logic
    clears the flag, moves focus to [restoreElement] and clears
    [restoreElement]; fired with the flag clear (a second time, or on a
    session that was never armed) it changes nothing.  So firing twice is
    firing once, and so is unmounting twice. *)
Theorem restore_cleanup_idempotent (s : State) :
  (mounted s = true ->
     restore_cleanup s =
       set_restoreElement
         (set_world (set_mounted s false)
            (focusElement (world s) (restoreElement s)))
         None) /\
  (mounted s = false -> restore_cleanup s = s) /\
  restore_cleanup (restore_cleanup s) = restore_cleanup s /\
  unmount (unmount s) = unmount s.
Proof.
  unfold unmount, restore_cleanup.
  destruct s as [w c f o r p [|] [|]]; cbn; repeat split; congruence.
Qed.

Lemma restore_cleanup_idempotent_witness :
  activeElement
    (world (restore_cleanup (Sample.mounted_trap (Some 4%nat) 1%nat None)))
    = Some 4%nat /\
  restore_cleanup (restore_cleanup (Sample.mounted_trap (Some 4%nat) 1%nat None))
    = restore_cleanup (Sample.mounted_trap (Some 4%nat) 1%nat None).
Proof.
  destruct (restore_cleanup_idempotent (Sample.mounted_trap (Some 4%nat) 1%nat None))
    as (H1 & _ & H3 & _).
  split; [|exact H3].
  rewrite H1; vm_compute; reflexivity.
Defined.

(** ** Arming *)

Lemma unchanged_flag (b : bool) (prevValues : list WVal) :
  unchanged [WBool b] prevValues = true <-> js_index prevValues 0 = WBool b.
Proof.
  unfold unchanged. cbn [every_from]. rewrite andb_true_r.
  destruct (js_index prevValues 0) as [| |b'| |]; cbn; split;
    try discriminate; try congruence.
  - intros H. apply Bool.eqb_prop in H. congruence.
  - intros [= ->]. apply Bool.eqb_reflx.
Qed.

(** The callback of the first watcher, taken alone: it changes something
    only when the value it observes differs from the previous one and
    [RestoreFocus] is on, that is on a change of the flag to on; a run with
    an unchanged value and a change to off leave everything as it is.  On a
    change to on, whatever was captured before, [restoreElement] becomes the
    element focused at that moment and [mounted] becomes [true]. *)
Lemma arm_watcher_edge_triggered
    (s : State) (newValues prevValues : list WVal) :
  (unchanged newValues prevValues = true ->
     arm_watcher newValues prevValues s = s) /\
  (featuresRestoreFocus s = false -> arm_watcher newValues prevValues s = s) /\
  (arm_watcher (restore_sources s) prevValues s <> s ->
     featuresRestoreFocus s = true /\ js_index prevValues 0 <> WBool true) /\
  (featuresRestoreFocus s = true ->
     arm_watcher [WBool true] [WBool true] s = s /\
     arm_watcher [WBool true] [WBool false] s =
       set_restoreElement (set_mounted s true) (document_activeElement s) /\
     arm_watcher [WBool true] [] s =
       set_restoreElement (set_mounted s true) (document_activeElement s)) /\
  (unchanged newValues prevValues = false -> featuresRestoreFocus s = true ->
     restoreElement (arm_watcher newValues prevValues s) = document_activeElement s /\
     mounted (arm_watcher newValues prevValues s) = true).
Proof.
  unfold arm_watcher. split; [|split; [|split; [|split]]].
  - now intros ->.
  - intros ->. now destruct (unchanged _ _).
  - unfold restore_sources. intros Hne.
    destruct (featuresRestoreFocus s) eqn:E.
    + split; [reflexivity|]. intros Hprev.
      apply unchanged_flag in Hprev. rewrite Hprev in Hne. congruence.
    + cbn [negb] in Hne. destruct (unchanged _ _); congruence.
  - intros H. rewrite H. repeat split.
  - intros Hu H. rewrite Hu, H. split; reflexivity.
Qed.

(** ** What no handler touches *)

Lemma same_session_refl (s : State) : same_session s s.
Proof. repeat split. Qed.

Lemma same_session_trans (s1 s2 s3 : State) :
  same_session s1 s2 -> same_session s2 s3 -> same_session s1 s3.
Proof. unfold same_session. intuition congruence. Qed.

Lemma focusElement_frame (w : World) (e : option Elem) :
  dom (focusElement w e) = dom w /\ refs (focusElement w e) = refs w.
Proof. destruct e; split; reflexivity. Qed.

#[local] Hint Resolve same_session_refl : core.

Lemma arm_watcher_same_session (n p : list WVal) (s : State) :
  same_session s (arm_watcher n p s).
Proof.
  unfold arm_watcher.
  destruct (unchanged n p); [auto|]. destruct (negb _); [auto|]. repeat split.
Qed.

Lemma restore_watcher_same_session (n p : list WVal) (s : State) :
  same_session s (restore_watcher n p s).
Proof.
  unfold restore_watcher.
  destruct (unchanged n p); [auto|]. destruct (negb _); [auto|]. repeat split.
Qed.

Lemma restore_cleanup_same_session (s : State) :
  same_session s (restore_cleanup s).
Proof.
  unfold restore_cleanup. destruct (Bool.eqb _ _); [auto|].
  repeat split; cbn; apply focusElement_frame.
Qed.

Lemma unmount_same_session (s : State) : same_session s (unmount s).
Proof.
  unfold unmount. destruct (invalidate s); [|auto].
  eapply same_session_trans; [|apply restore_cleanup_same_session].
  repeat split.
Qed.

Lemma initial_focus_watcher_same_session (n p : list WVal) (s : State) :
  same_session s (state_of (initial_focus_watcher n p s)).
Proof.
  unfold initial_focus_watcher.
  destruct (unchanged n p); [cbn; auto|]. destruct (negb _); [cbn; auto|].
  destruct (container_value s) as [c|]; [|cbn; auto].
  destruct (match initialFocus_value s with Some _ => _ | None => _ end);
    [repeat split|].
  destruct (initialFocus_value s) as [t|]; [repeat split|].
  pose proof (focusIn_frame (world s) c (mkFocus First false)) as (Hd & Hr & _).
  destruct (focusIn _ _ _) as [[|] w']; repeat split; assumption.
Qed.

Lemma onMounted_same_session (s : State) : same_session s (state_of (onMounted s)).
Proof.
  unfold onMounted.
  eapply same_session_trans; [apply arm_watcher_same_session|].
  eapply same_session_trans; [apply restore_watcher_same_session|].
  apply initial_focus_watcher_same_session.
Qed.

Lemma keydown_handler_same_session (s : State) (event : KeyboardEvent) :
  same_session s (fst (keydown_handler s event)) /\
  mounted (fst (keydown_handler s event)) = mounted s.
Proof.
  unfold keydown_handler.
  destruct (negb _); [cbn; auto|].
  destruct (container_value s) as [c|]; [|cbn; auto].
  destruct (negb _); [cbn; auto|].
  pose proof (focusIn_frame (world s) c
                (with_WrapAround (if shiftKey event then Previous else Next)))
    as (Hd & Hr & _).
  destruct (focusIn _ _ _) as [[|] w']; repeat split; assumption.
Qed.

(** The focus handler always completes normally. *)
Lemma focus_handler_same_session (s : State) (event : FocusEvent) :
  exists s' event', focus_handler s event = Normal (s', event') /\
    same_session s s' /\ mounted s' = mounted s.
Proof.
  unfold focus_handler.
  destruct (negb _); [eauto|].
  destruct (Nat.eqb _ _); [eauto|].
  destruct (previousActiveElement s) as [previous|]; [|eauto].
  destruct (negb _); [eauto|].
  destruct (target event) as [|toElement|];
    try (do 2 eexists; split; [reflexivity|]; repeat split).
  destruct (contains_spec (world s) (allContainers s) toElement) as (b & -> & _).
  destruct b; do 2 eexists; (split; [reflexivity|]); repeat split.
Qed.

Lemma dispatch_same_session (s : State) (e : Event) :
  exists s', dispatch s e = Normal s' /\
    same_session s s' /\ mounted s' = mounted s.
Proof.
  destruct e as [event|event]; cbn [dispatch].
  - eexists. split; [reflexivity|]. apply keydown_handler_same_session.
  - destruct (focus_handler_same_session s event) as (s' & ev' & -> & H).
    eauto.
Qed.

Lemma perform_features (s : State) (a : Step) : features (perform s a) = features s.
Proof.
  destruct a as [el| |e|]; cbn [perform].
  - reflexivity.
  - apply onMounted_same_session.
  - destruct (dispatch_same_session s e) as (s' & -> & H & _). apply H.
  - apply unmount_same_session.
Qed.

Lemma session_features (steps : list Step) (s : State) :
  features (session s steps) = features s.
Proof.
  unfold session. revert s.
  induction steps as [|a steps IH]; intros s; cbn [fold_left]; [reflexivity|].
  now rewrite IH, perform_features.
Qed.

(** ** Changing the flag on a mounted session *)

Lemma has_testbit (f k : Z) : 0 <= k -> Features.has f (2 ^ k) = Z.testbit f k.
Proof.
  intros Hk. unfold Features.has.
  assert (E : Z.land f (2 ^ k) = if Z.testbit f k then 2 ^ k else 0).
  { apply Z.bits_inj'. intros n Hn.
    rewrite Z.land_spec, Z.pow2_bits_eqb by exact Hk.
    destruct (Z.testbit f k) eqn:Ef.
    - rewrite Z.pow2_bits_eqb by exact Hk.
      destruct (Z.eqb_spec k n) as [<-|_]; [now rewrite Ef|apply andb_false_r].
    - rewrite Z.bits_0.
      destruct (Z.eqb_spec k n) as [<-|_]; [now rewrite Ef|apply andb_false_r]. }
  rewrite E. destruct (Z.testbit f k); [|reflexivity].
  assert (0 < 2 ^ k) by (apply Z.pow_pos_nonneg; lia).
  destruct (Z.eqb_spec (2 ^ k) 0); [lia|reflexivity].
Qed.

(** Flipping the bit of [RestoreFocus] flips that flag and no other. *)
Lemma has_flip_RestoreFocus (f : Z) :
  Features.has (Z.lxor f Features.RestoreFocus) Features.RestoreFocus
    = negb (Features.has f Features.RestoreFocus) /\
  Features.has (Z.lxor f Features.RestoreFocus) Features.InitialFocus
    = Features.has f Features.InitialFocus /\
  Features.has (Z.lxor f Features.RestoreFocus) Features.FocusLock
    = Features.has f Features.FocusLock.
Proof.
  change Features.RestoreFocus with (2 ^ 4).
  change Features.InitialFocus with (2 ^ 1).
  change Features.FocusLock with (2 ^ 3).
  rewrite !has_testbit by lia. rewrite !Z.lxor_spec, !Z.pow2_bits_eqb by lia.
  repeat split; destruct (Z.testbit f _); reflexivity.
Qed.

Lemma strict_eq_refl (v : WVal) : strict_eq v v = true.
Proof.
  destruct v; cbn; try reflexivity.
  - now destruct b.
  - apply Nat.eqb_refl.
  - apply Nat.eqb_refl.
Qed.

Lemma every_from_same (pre l : list WVal) :
  every_from (List.length pre) l (pre ++ l) = true.
Proof.
  revert pre. induction l as [|v l IH]; intros pre; cbn [every_from]; [reflexivity|].
  unfold js_index. rewrite nth_middle, strict_eq_refl. cbn [andb].
  specialize (IH (pre ++ [v])).
  rewrite length_app, <- app_assoc in IH. cbn in IH.
  now rewrite Nat.add_1_r in IH.
Qed.

(** Values that did not change pass the guard of every watcher. *)
Lemma unchanged_refl (l : list WVal) : unchanged l l = true.
Proof. exact (every_from_same [] l). Qed.

Lemma initial_focus_sources_same (s s' : State) :
  same_session s s' ->
  initial_focus_sources s' = initial_focus_sources s.
Proof.
  intros (Hc & Hf & Ho & _ & Hr).
  unfold initial_focus_sources, container_value, featuresInitialFocus.
  now rewrite Hc, Hf, Ho, Hr.
Qed.

(** What the flush does when the flag really changes: the first watcher
    captures when the flag comes on; the second has its registered cleanup
    called, whichever way the flag goes, and registers again when the flag
    comes on; the third sees the values it saw before and returns. *)
Lemma set_RestoreFocus_flush (s : State) (on : bool) :
  featuresRestoreFocus s = negb on ->
  set_RestoreFocus s on =
    let s0 := set_features s (Z.lxor (features s) Features.RestoreFocus) in
    let s1 :=
      if on then set_restoreElement (set_mounted s0 true) (document_activeElement s0)
      else s0 in
    let s2 := if invalidate s1 then restore_cleanup s1 else s1 in
    if on then set_invalidate s2 true else s2.
Proof.
  intros HR. unfold set_RestoreFocus. rewrite HR.
  replace (Bool.eqb (negb on) on) with false by now destruct on.
  set (s0 := set_features s (Z.lxor (features s) Features.RestoreFocus)).
  assert (H0 : featuresRestoreFocus s0 = on).
  { unfold featuresRestoreFocus in *. cbn.
    destruct (has_flip_RestoreFocus (features s)) as (-> & _). rewrite HR.
    apply negb_involutive. }
  assert (Hu : unchanged [WBool on] [WBool (negb on)] = false)
    by now destruct on.
  cbv zeta.
  assert (E1 : arm_watcher (restore_sources s0) (restore_sources s) s0 =
               if on
               then set_restoreElement (set_mounted s0 true) (document_activeElement s0)
               else s0).
  { unfold arm_watcher, restore_sources. rewrite H0, HR, Hu.
    now destruct on. }
  rewrite E1.
  set (s1 := if on then _ else s0).
  assert (H1 : featuresRestoreFocus s1 = on) by (unfold s1; now destruct on).
  assert (E2 : restore_watcher_rerun (restore_sources s1) (restore_sources s) s1 =
               if on
               then set_invalidate (if invalidate s1 then restore_cleanup s1 else s1) true
               else if invalidate s1 then restore_cleanup s1 else s1).
  { unfold restore_watcher_rerun, restore_watcher, restore_sources.
    rewrite H1, HR, Hu.
    assert (H2 : featuresRestoreFocus (if invalidate s1 then restore_cleanup s1 else s1)
                 = on).
    { destruct (invalidate s1); [|exact H1].
      unfold featuresRestoreFocus in *.
      destruct (restore_cleanup_same_session s1) as (_ & -> & _). exact H1. }
    rewrite H2. now destruct on. }
  rewrite E2.
  set (s2 := if on then set_invalidate _ true else _).
  assert (Hs : same_session s0 s2).
  { unfold s2.
    assert (Hc : same_session s0 (if invalidate s1 then restore_cleanup s1 else s1)).
    { assert (H01 : same_session s0 s1) by (unfold s1; destruct on; repeat split).
      destruct (invalidate s1); [|exact H01].
      eapply same_session_trans; [exact H01|apply restore_cleanup_same_session]. }
    destruct on; [|exact Hc].
    eapply same_session_trans; [exact Hc|repeat split]. }
  assert (E3 : initial_focus_sources s2 = initial_focus_sources s).
  { destruct Hs as (Hc & Hf & Ho & _ & Hr).
    unfold initial_focus_sources, container_value, featuresInitialFocus.
    rewrite Hc, Hf, Ho, Hr. cbn.
    now destruct (has_flip_RestoreFocus (features s)) as (_ & -> & _). }
  unfold initial_focus_watcher. rewrite E3, unchanged_refl. reflexivity.
Qed.

(** C7: on a mounted session the code does not do what the claim says.
    Take an armed session: [RestoreFocus] on, [mounted] set, the cleanup of
    the second watcher registered.  Turning the flag off restores at once:
    the cleanup runs, focus goes to [restoreElement], [mounted] and
    [restoreElement] are cleared.  Turning it on again, the first watcher
    does capture the element focused at that moment and sets [mounted]; but
    the second watcher, running next in the same flush, has the cleanup of
    its first run called again, which clears [mounted] and [restoreElement].
    After the flush the session is not armed: nothing is captured, [mounted]
    is [false], every focus event is ignored and unmounting restores
    nothing.  Writing the value the flag already has changes nothing. *)
Theorem rearming_is_undone_in_the_same_flush (s : State) :
  featuresRestoreFocus s = true ->
  mounted s = true ->
  invalidate s = true ->
  set_RestoreFocus s true = s /\
  (featuresRestoreFocus (set_RestoreFocus s false) = false /\
   mounted (set_RestoreFocus s false) = false /\
   restoreElement (set_RestoreFocus s false) = None /\
   world (set_RestoreFocus s false) = focusElement (world s) (restoreElement s)) /\
  (mounted
     (arm_watcher [WBool true] [WBool false]
        (set_features (set_RestoreFocus s false) (features s))) = true /\
   restoreElement
     (arm_watcher [WBool true] [WBool false]
        (set_features (set_RestoreFocus s false) (features s)))
     = document_activeElement (set_RestoreFocus s false)) /\
  (featuresRestoreFocus (set_RestoreFocus (set_RestoreFocus s false) true) = true /\
   mounted (set_RestoreFocus (set_RestoreFocus s false) true) = false /\
   restoreElement (set_RestoreFocus (set_RestoreFocus s false) true) = None /\
   world (set_RestoreFocus (set_RestoreFocus s false) true)
     = world (set_RestoreFocus s false)) /\
  (forall event,
     focus_handler (set_RestoreFocus (set_RestoreFocus s false) true) event
     = Normal (set_RestoreFocus (set_RestoreFocus s false) true, event)) /\
  world (unmount (set_RestoreFocus (set_RestoreFocus s false) true))
    = world (set_RestoreFocus s false).
Proof.
  intros HR Hm Hi.
  assert (Eoff : set_RestoreFocus s false =
                 set_restoreElement
                   (set_world
                      (set_mounted
                         (set_features s (Z.lxor (features s) Features.RestoreFocus))
                         false)
                      (focusElement (world s) (restoreElement s)))
                   None).
  { rewrite (set_RestoreFocus_flush s false) by exact HR. cbv zeta. cbv iota.
    cbn [invalidate set_features]. rewrite Hi. unfold restore_cleanup.
    cbn [mounted set_features]. rewrite Hm. reflexivity. }
  assert (HRoff : featuresRestoreFocus (set_RestoreFocus s false) = false).
  { rewrite Eoff. unfold featuresRestoreFocus in *. cbn.
    destruct (has_flip_RestoreFocus (features s)) as (-> & _). now rewrite HR. }
  assert (Fon : Z.lxor (features (set_RestoreFocus s false)) Features.RestoreFocus
                = features s).
  { rewrite Eoff. cbn. rewrite Z.lxor_assoc, Z.lxor_nilpotent. apply Z.lxor_0_r. }
  assert (Eon : set_RestoreFocus (set_RestoreFocus s false) true =
                set_invalidate
                  (set_restoreElement
                     (set_mounted
                        (set_features (set_RestoreFocus s false) (features s)) false)
                     None)
                  true).
  { assert (Hit : invalidate (set_RestoreFocus s false) = true)
      by (rewrite Eoff; exact Hi).
    rewrite (set_RestoreFocus_flush (set_RestoreFocus s false) true) by exact HRoff.
    cbv zeta. cbv iota. rewrite Fon. clear Eoff HRoff Fon.
    destruct (set_RestoreFocus s false) as [[d act rf] c f o r p m i].
    cbn in Hit. subst i. unfold restore_cleanup, document_activeElement. cbn.
    now destruct act. }
  split.
  { unfold set_RestoreFocus. now rewrite HR. }
  split.
  { rewrite HRoff. rewrite Eoff. cbn. auto. }
  split.
  { unfold arm_watcher. change (unchanged [WBool true] [WBool false]) with false.
    unfold featuresRestoreFocus in *. cbn [features set_features]. rewrite HR.
    cbn. auto. }
  split.
  { rewrite Eon. unfold featuresRestoreFocus in *. cbn. rewrite HR. auto. }
  split.
  { intros event. unfold focus_handler. rewrite Eon. cbn.
    destruct (negb _); [reflexivity|]. destruct (Nat.eqb _ _); [reflexivity|].
    now destruct (previousActiveElement _). }
  rewrite Eon. reflexivity.
Qed.

Lemma rearming_is_undone_in_the_same_flush_witness :
  mounted
    (set_RestoreFocus
       (set_RestoreFocus
          (fst (keydown_handler (Sample.mounted_trap (Some 4%nat) 1%nat None)
                  (Sample.press "Tab" true))) false) true) = false /\
  restoreElement
    (set_RestoreFocus
       (set_RestoreFocus
          (fst (keydown_handler (Sample.mounted_trap (Some 4%nat) 1%nat None)
                  (Sample.press "Tab" true))) false) true) = None.
Proof.
  destruct (rearming_is_undone_in_the_same_flush
              (fst (keydown_handler (Sample.mounted_trap (Some 4%nat) 1%nat None)
                      (Sample.press "Tab" true))))
    as (_ & _ & _ & (_ & Hm & Hr & _) & _).
  - vm_compute. reflexivity.
  - vm_compute. reflexivity.
  - vm_compute. reflexivity.
  - split; [exact Hm|exact Hr].
Defined.

(** On the sample page: a mounted trap (focus came from the button 4) after
    Shift+Tab has focus on the button 3.  Off: focus returns to 4 and the
    session is disarmed.  On again: still disarmed, nothing captured. *)
Example toggle_RestoreFocus_on_sample :
  let s := fst (keydown_handler (Sample.mounted_trap (Some 4%nat) 1%nat None)
                  (Sample.press "Tab" true)) in
  (document_activeElement s, restoreElement s, mounted s)
    = (Some 3%nat, Some 4%nat, true) /\
  (document_activeElement (set_RestoreFocus s false),
   restoreElement (set_RestoreFocus s false),
   mounted (set_RestoreFocus s false))
    = (Some 4%nat, None, false) /\
  (document_activeElement (set_RestoreFocus (set_RestoreFocus s false) true),
   restoreElement (set_RestoreFocus (set_RestoreFocus s false) true),
   mounted (set_RestoreFocus (set_RestoreFocus s false) true))
    = (Some 4%nat, None, false).
Proof. repeat split; evaluate. Qed.

(** ** The host component *)

(** C9: [FocusTrap.All] is [undefined], the component object having no
    member of that name, so the default [ref(Features.All)] of the parameter
    applies: the engine of every [FocusTrap] starts with the four features
    enabled, and they stay enabled through every step of the session. *)
Theorem FocusTrap_features_All
    (w : World) (container initialFocusRef : RefId)
    (props_initialFocus : option Elem) (steps : list Step) :
  get_member FocusTrap "All" = JSUndefined /\
  features_parameter (get_member FocusTrap "All") = JSFeaturesRef Features.All /\
  features (FocusTrap_setup w container initialFocusRef props_initialFocus)
    = Features.All /\
  features
    (session (FocusTrap_setup w container initialFocusRef props_initialFocus) steps)
    = Features.All /\
  Forall
    (fun F =>
       Features.has
         (features
            (session
               (FocusTrap_setup w container initialFocusRef props_initialFocus)
               steps)) F = true)
    Features.flags.
Proof.
  split; [reflexivity|]. split; [reflexivity|]. split; [reflexivity|].
  rewrite session_features. split; [reflexivity|].
  repeat constructor.
Qed.

(** ** The recorded element *)

Lemma same_session_passes_check (s s' : State) (e : Elem) :
  same_session s s' -> passes_check s' e = passes_check s e.
Proof.
  intros (Hc & _ & Ho & Hd & Hr). unfold passes_check, allContainers.
  rewrite Hc, Ho. now rewrite (contains_same_document (world s) (world s')).
Qed.

Lemma same_session_initialFocus_value (s s' : State) :
  same_session s s' -> initialFocus_value s' = initialFocus_value s.
Proof.
  intros (_ & _ & Ho & _ & Hr). unfold initialFocus_value. now rewrite Ho, Hr.
Qed.

(** Validity only depends on the recorded element and on what no handler
    touches. *)
Lemma recorded_focus_valid_kept (s s' : State) :
  same_session s s' ->
  previousActiveElement s' = previousActiveElement s ->
  recorded_focus_valid s = true -> recorded_focus_valid s' = true.
Proof.
  intros Hs Hp. unfold recorded_focus_valid. rewrite Hp.
  destruct (previousActiveElement s) as [p|]; [|reflexivity].
  now rewrite (same_session_passes_check s s'), (same_session_initialFocus_value s s').
Qed.

Lemma recorded_focus_valid_checked (s s' : State) (b : Elem) :
  same_session s s' ->
  previousActiveElement s' = Some b ->
  passes_check s b = true -> recorded_focus_valid s' = true.
Proof.
  intros Hs Hp Hb. unfold recorded_focus_valid. rewrite Hp.
  now rewrite (same_session_passes_check s s'), Hb.
Qed.

(** A focusable descendant of the mounted container passes the check. *)
Lemma focusable_descendant_passes_check (s : State) (c e : Elem) :
  container_value s = Some c ->
  In e (focusable_descendants (dom (world s)) c) ->
  passes_check s e = true.
Proof.
  intros Hc Hin. unfold passes_check.
  rewrite (contains_own_container s c e Hc); [reflexivity|].
  now apply focusable_descendants_contained.
Qed.

(** Every assignment of the keydown handler is of an element that passes
    the check. *)
Lemma keydown_handler_assigns_checked (s : State) (event : KeyboardEvent) :
  previousActiveElement (fst (keydown_handler s event)) = previousActiveElement s \/
  exists b, previousActiveElement (fst (keydown_handler s event)) = Some b /\
            passes_check s b = true.
Proof.
  unfold keydown_handler.
  destruct (negb _); [now left|].
  destruct (container_value s) as [c|] eqn:Hc; [|now left].
  destruct (negb _); [now left|].
  pose proof (focusIn_Success (world s) c
                (with_WrapAround (if shiftKey event then Previous else Next))) as HS.
  destruct (focusIn _ _ _) as [[|] w']; [now left|].
  destruct (HS eq_refl) as (e & He & Hin). right. exists e. split.
  - exact He.
  - eapply focusable_descendant_passes_check; eauto.
Qed.

(** Every assignment of the focus handler is of the target of the event,
    after it passed the check. *)
Lemma focus_handler_assigns_checked (s : State) (event : FocusEvent) :
  exists s' event', focus_handler s event = Normal (s', event') /\
    (previousActiveElement s' = previousActiveElement s \/
     exists b, target event = TargetHTMLElement b /\
               previousActiveElement s' = Some b /\ passes_check s b = true).
Proof.
  unfold focus_handler.
  destruct (negb _); [do 2 eexists; split; [reflexivity|now left]|].
  destruct (Nat.eqb _ _); [do 2 eexists; split; [reflexivity|now left]|].
  destruct (previousActiveElement s) as [previous|] eqn:Hp;
    [|do 2 eexists; split; [reflexivity|now left]].
  destruct (negb _); [do 2 eexists; split; [reflexivity|now left]|].
  destruct (target event) as [|toElement|];
    try (do 2 eexists; split; [reflexivity|]; now left).
  unfold passes_check.
  destruct (contains_spec (world s) (allContainers s) toElement) as (b & E & _).
  rewrite E. destruct b; do 2 eexists; (split; [reflexivity|]).
  - right. exists toElement. repeat split. now rewrite E.
  - now left.
Qed.

Lemma dispatch_recorded_focus_valid (s : State) (e : Event) :
  recorded_focus_valid s = true ->
  exists s', dispatch s e = Normal s' /\ recorded_focus_valid s' = true /\
             same_session s s' /\ mounted s' = mounted s.
Proof.
  intros Hv.
  destruct (dispatch_same_session s e) as (s' & Hd & Hs & Hm).
  exists s'. split; [exact Hd|]. split; [|auto].
  destruct e as [event|event]; cbn [dispatch] in Hd.
  - injection Hd as <-.
    destruct (keydown_handler_assigns_checked s event) as [Hp|(b & Hp & Hb)].
    + eapply recorded_focus_valid_kept; eauto.
    + eapply recorded_focus_valid_checked; eauto.
  - destruct (focus_handler_assigns_checked s event)
      as (s1 & ev1 & E & [Hp|(b & _ & Hp & Hb)]);
      rewrite E in Hd; injection Hd as <-.
    + eapply recorded_focus_valid_kept; eauto.
    + eapply recorded_focus_valid_checked; eauto.
Qed.

(** Mounting keeps the recorded element valid: what the initial-focus
    watcher records is inside the container or is the explicit target. *)
Lemma onMounted_recorded_focus_valid (s : State) :
  recorded_focus_valid s = true ->
  recorded_focus_valid (state_of (onMounted s)) = true.
Proof.
  intros Hv. unfold onMounted.
  set (s1 := arm_watcher _ _ s).
  set (s2 := restore_watcher _ _ s1).
  assert (H2 : recorded_focus_valid s2 = true).
  { apply (recorded_focus_valid_kept s).
    - eapply same_session_trans;
        [apply arm_watcher_same_session|apply restore_watcher_same_session].
    - unfold s2, s1, restore_watcher, arm_watcher.
      repeat (destruct (unchanged _ _) || destruct (negb _)); reflexivity.
    - exact Hv. }
  clearbody s2. clear s1 Hv s.
  generalize (initial_focus_sources s2). intros n.
  unfold initial_focus_watcher.
  destruct (unchanged n []); [exact H2|]. destruct (negb _); [exact H2|].
  destruct (container_value s2) as [c|] eqn:Hc; [|exact H2].
  destruct (initialFocus_value s2) as [t|] eqn:Ht.
  - destruct (same_element (Some t) (document_activeElement s2)) eqn:E.
    + apply same_element_true in E. cbn [state_of].
      unfold recorded_focus_valid. cbn [previousActiveElement set_previousActiveElement].
      rewrite <- E. unfold initialFocus_value in *. cbn. rewrite Ht.
      cbn. rewrite Nat.eqb_refl. apply orb_true_r.
    + cbn [state_of]. unfold recorded_focus_valid, initialFocus_value in *.
      cbn. rewrite Ht. cbn. rewrite Nat.eqb_refl. apply orb_true_r.
  - destruct (node_contains (dom (world s2)) c (document_activeElement s2)) eqn:Hin.
    + cbn [state_of]. destruct (document_activeElement s2) as [a|] eqn:Ha;
        [|reflexivity].
      apply (recorded_focus_valid_checked s2 _ a); [repeat split|reflexivity|].
      unfold passes_check. now rewrite (contains_own_container s2 c a Hc Hin).
    + pose proof (focusIn_frame (world s2) c (mkFocus First false)) as (Hd & Hr & _).
      pose proof (focusIn_Success (world s2) c (mkFocus First false)) as HS.
      destruct (focusIn _ _ _) as [[|] w']; cbn [state_of].
      * apply (recorded_focus_valid_kept s2); [repeat split; assumption|reflexivity|exact H2].
      * destruct (HS eq_refl) as (e & He & Hine).
        apply (recorded_focus_valid_checked s2 _ e);
          [repeat split; assumption|exact He|].
        eapply focusable_descendant_passes_check; eauto.
Qed.

(** The claim that the recorded element is always inside an allowed region
    fails: a [FocusTrap] whose [initialFocus] is the focused button 4
    outside its container records that button when it is mounted, and keeps
    it when a focus change towards the panel 5 is vetoed. *)
Lemma recorded_focus_outside_every_region :
  mounted (Sample.mounted_trap (Some 4%nat) 1%nat (Some 4%nat)) = true /\
  Features.has (features (Sample.mounted_trap (Some 4%nat) 1%nat (Some 4%nat)))
    Features.FocusLock = true /\
  run (Sample.mounted_trap (Some 4%nat) 1%nat (Some 4%nat))
      [FocusChange (Sample.focus_on 5%nat)]
    = Normal (Sample.mounted_trap (Some 4%nat) 1%nat (Some 4%nat)) /\
  previousActiveElement (Sample.mounted_trap (Some 4%nat) 1%nat (Some 4%nat))
    = Some 4%nat /\
  contains (world (Sample.mounted_trap (Some 4%nat) 1%nat (Some 4%nat)))
    (allContainers (Sample.mounted_trap (Some 4%nat) 1%nat (Some 4%nat))) 4%nat
    = Normal false /\
  recorded_focus_inside (Sample.mounted_trap (Some 4%nat) 1%nat (Some 4%nat)) = false.
Proof. repeat split; vm_compute; reflexivity. Qed.

Lemma initial_focus_watcher_mounted (n p : list WVal) (s : State) :
  mounted (state_of (initial_focus_watcher n p s)) = mounted s.
Proof.
  unfold initial_focus_watcher.
  destruct (unchanged n p); [reflexivity|]. destruct (negb _); [reflexivity|].
  destruct (container_value s) as [c|]; [|reflexivity].
  destruct (match initialFocus_value s with Some _ => _ | None => _ end);
    [reflexivity|].
  destruct (initialFocus_value s) as [t|]; [reflexivity|].
  now destruct (focusIn _ _ _) as [[|] w'].
Qed.

(** With [RestoreFocus] enabled the mounted hook leaves the session
    mounted, whether or not the initial-focus watcher throws. *)
Lemma onMounted_mounted (s : State) :
  featuresRestoreFocus s = true -> mounted (state_of (onMounted s)) = true.
Proof.
  intros HR. unfold onMounted. rewrite initial_focus_watcher_mounted.
  set (s1 := arm_watcher _ _ s).
  assert (H1 : mounted s1 = true).
  { unfold s1, arm_watcher, restore_sources. rewrite HR. reflexivity. }
  unfold restore_watcher.
  destruct (unchanged _ _); [exact H1|]. destruct (negb _); exact H1.
Qed.

(** Window events keep a mounted session with [FocusLock] mounted and
    locked, and keep the recorded element valid. *)
Lemma run_recorded_focus_valid (events : list Event) (s : State) :
  mounted s = true ->
  Features.has (features s) Features.FocusLock = true ->
  recorded_focus_valid s = true ->
  exists s', run s events = Normal s' /\
    recorded_focus_valid s' = true /\ mounted s' = true /\
    Features.has (features s') Features.FocusLock = true.
Proof.
  revert s.
  induction events as [|e events IH]; intros s Hm HF Hv; cbn [run].
  - exists s. auto.
  - destruct (dispatch_recorded_focus_valid s e Hv) as (s1 & -> & Hv1 & Hs & Hm1).
    apply IH; [congruence| |exact Hv1].
    destruct Hs as (_ & -> & _). exact HF.
Qed.

(** C1 (as the code has it): take a session whose recorded element, if it
    has one, is inside an allowed region or is the explicit initial-focus
    target (a session that has not been mounted yet has none), with
    [RestoreFocus] and [FocusLock] enabled.  Running its mounted hook leaves
    it mounted, locked and with a recorded element that is inside an allowed
    region or is the explicit initial-focus target; and every sequence of
    focus-change notifications (and of key-down events) after that is
    handled to the end with the same three facts holding.  The same holds of
    the events handled from any mounted, locked state whose recorded element
    is inside an allowed region or is the explicit target.  An assignment
    made by the focus handler is always of the target of the notification,
    after it passed the containment check. *)
Theorem recorded_focus_invariant (s0 : State) (events : list Event) :
  recorded_focus_valid s0 = true ->
  featuresRestoreFocus s0 = true ->
  Features.has (features s0) Features.FocusLock = true ->
  (mounted (state_of (onMounted s0)) = true /\
   Features.has (features (state_of (onMounted s0))) Features.FocusLock = true /\
   recorded_focus_valid (state_of (onMounted s0)) = true) /\
  (exists s', run (state_of (onMounted s0)) events = Normal s' /\
     recorded_focus_valid s' = true /\ mounted s' = true /\
     Features.has (features s') Features.FocusLock = true) /\
  (forall s,
     mounted s = true ->
     Features.has (features s) Features.FocusLock = true ->
     recorded_focus_valid s = true ->
     exists s', run s events = Normal s' /\
       recorded_focus_valid s' = true /\ mounted s' = true /\
       Features.has (features s') Features.FocusLock = true) /\
  (forall s event, exists s1 event1,
     focus_handler s event = Normal (s1, event1) /\
     (previousActiveElement s1 = previousActiveElement s \/
      exists b, target event = TargetHTMLElement b /\
                previousActiveElement s1 = Some b /\ passes_check s b = true)).
Proof.
  intros Hv HR HF.
  assert (Hm1 : mounted (state_of (onMounted s0)) = true)
    by now apply onMounted_mounted.
  assert (HF1 : Features.has (features (state_of (onMounted s0)))
                  Features.FocusLock = true).
  { destruct (onMounted_same_session s0) as (_ & -> & _). exact HF. }
  assert (Hv1 : recorded_focus_valid (state_of (onMounted s0)) = true)
    by now apply onMounted_recorded_focus_valid.
  split; [auto|]. split; [now apply run_recorded_focus_valid|].
  split; [intros s; apply run_recorded_focus_valid|].
  intros s event. apply focus_handler_assigns_checked.
Qed.

Lemma recorded_focus_invariant_witness :
  (mounted (state_of (onMounted (Sample.rendered_trap (Some 4%nat) 1%nat (Some 4%nat))))
     = true /\
   Features.has
     (features (state_of (onMounted (Sample.rendered_trap (Some 4%nat) 1%nat (Some 4%nat)))))
     Features.FocusLock = true /\
   recorded_focus_valid
     (state_of (onMounted (Sample.rendered_trap (Some 4%nat) 1%nat (Some 4%nat))))
     = true) /\
  exists s',
    run (state_of (onMounted (Sample.rendered_trap (Some 4%nat) 1%nat (Some 4%nat))))
      [ FocusChange (Sample.focus_on 5%nat);
        Keydown (Sample.press "Tab" false);
        FocusChange (Sample.focus_on 3%nat) ] = Normal s' /\
    recorded_focus_valid s' = true /\ mounted s' = true /\
    Features.has (features s') Features.FocusLock = true.
Proof.
  assert (Hv : recorded_focus_valid
                 (Sample.rendered_trap (Some 4%nat) 1%nat (Some 4%nat)) = true)
    by (vm_compute; reflexivity).
  assert (HR : featuresRestoreFocus
                 (Sample.rendered_trap (Some 4%nat) 1%nat (Some 4%nat)) = true)
    by (vm_compute; reflexivity).
  assert (HF : Features.has
                 (features (Sample.rendered_trap (Some 4%nat) 1%nat (Some 4%nat)))
                 Features.FocusLock = true)
    by (vm_compute; reflexivity).
  destruct (recorded_focus_invariant
              (Sample.rendered_trap (Some 4%nat) 1%nat (Some 4%nat))
              [ FocusChange (Sample.focus_on 5%nat);
                Keydown (Sample.press "Tab" false);
                FocusChange (Sample.focus_on 3%nat) ] Hv HR HF)
    as (H1 & H2 & _).
  split; [exact H1|exact H2].
Defined.

(** The session before it is mounted has its [mounted] flag clear and no
    recorded element; the mounted hook sets the one and records the
    other. *)
Example rendered_trap_is_not_mounted :
  mounted (Sample.rendered_trap (Some 4%nat) 1%nat (Some 4%nat)) = false /\
  previousActiveElement (Sample.rendered_trap (Some 4%nat) 1%nat (Some 4%nat)) = None /\
  mounted (state_of (onMounted (Sample.rendered_trap (Some 4%nat) 1%nat (Some 4%nat))))
    = true /\
  previousActiveElement
    (state_of (onMounted (Sample.rendered_trap (Some 4%nat) 1%nat (Some 4%nat))))
    = Some 4%nat.
Proof. repeat split; evaluate. Qed.

(** * Further properties of the focus trap *)

(** ** The containment check over sets of regions *)

(** The check composes over unions of region sets: no region makes it
    [false], one region makes it the containment in the element the
    reference resolves to ([false] for [null]), and a union passes exactly
    when one of its parts does. *)
Theorem contains_union (w : World) (S T : gset RefId) (r : RefId) (element : Elem) :
  contains w ∅ element = Normal false /\
  contains w {[ r ]} element =
    Normal (match refs w !! r with
            | Some c => node_contains (dom w) c (Some element)
            | None => false
            end) /\
  exists b1 b2,
    contains w S element = Normal b1 /\
    contains w T element = Normal b2 /\
    contains w (S ∪ T) element = Normal (b1 || b2).
Proof.
  split; [|split].
  - unfold contains. now rewrite elements_empty.
  - unfold contains. rewrite elements_singleton. cbn [contains_loop].
    destruct (refs w !! r) as [c|]; cbn [optional_contains]; [|reflexivity].
    now destruct (node_contains _ _ _).
  - destruct (contains_spec w S element) as (b1 & E1 & I1).
    destruct (contains_spec w T element) as (b2 & E2 & I2).
    destruct (contains_spec w (S ∪ T) element) as (b & E & I).
    exists b1, b2. split; [exact E1|]. split; [exact E2|].
    rewrite E. f_equal. apply eq_true_iff_eq.
    rewrite orb_true_iff, I, I1, I2. split.
    + intros (r' & c & Hin & H). apply elem_of_union in Hin as [Hin|Hin];
        [left|right]; exists r', c; auto.
    + intros [(r' & c & Hin & H)|(r' & c & Hin & H)]; exists r', c;
        (split; [apply elem_of_union; auto|exact H]).
Qed.

(** ** The focus handler *)

Lemma passes_check_contains (s : State) (b : Elem) :
  contains (world s) (allContainers s) b = Normal (passes_check s b).
Proof.
  unfold passes_check.
  now destruct (contains_spec (world s) (allContainers s) b) as (x & -> & _).
Qed.

(** The handler with its guards passed, by the target of the event. *)
Lemma focus_handler_engaged (s : State) (event : FocusEvent) (p : Elem) :
  Features.has (features s) Features.FocusLock = true ->
  previousActiveElement s = Some p ->
  mounted s = true ->
  focus_handler s event =
    Normal
      match target event with
      | TargetHTMLElement b =>
          if passes_check s b
          then (set_world (set_previousActiveElement s (Some b))
                  (set_active (world s) (Some b)), event)
          else (set_world s (set_active (world s) (Some p)),
                stopPropagation (preventDefault event))
      | _ => (set_world s (set_active (world s) (Some p)), event)
      end.
Proof.
  intros HF Hp Hm. unfold focus_handler.
  rewrite HF, allContainers_size, Hp, Hm. cbn [negb]. cbv iota.
  destruct (target event) as [|b|]; try reflexivity.
  rewrite passes_check_contains. now destruct (passes_check s b).
Qed.

(** Whenever the focus handler acts (with [FocusLock] enabled, an element
    recorded and the session mounted), it leaves focus on the element it
    has recorded, whatever the target of the event was; the recorded element
    is the old one or the target; and the event is cancelled only for an
    [HTMLElement] target that fails the check, so that for a [null] target
    or one that is not an [HTMLElement] focus is forced back with the event
    left alone. *)
Theorem focus_handler_leaves_focus_on_recorded
    (s : State) (event : FocusEvent) (p : Elem) :
  Features.has (features s) Features.FocusLock = true ->
  previousActiveElement s = Some p ->
  mounted s = true ->
  exists s' event',
    focus_handler s event = Normal (s', event') /\
    document_activeElement s' = previousActiveElement s' /\
    (previousActiveElement s' = Some p \/
     target event = match previousActiveElement s' with
                    | Some b => TargetHTMLElement b
                    | None => TargetNull
                    end) /\
    event' = match target event with
             | TargetHTMLElement b =>
                 if passes_check s b then event
                 else stopPropagation (preventDefault event)
             | _ => event
             end.
Proof.
  intros HF Hp Hm. rewrite (focus_handler_engaged s event p HF Hp Hm).
  destruct (target event) as [|b|] eqn:Ht.
  - do 2 eexists. split; [reflexivity|]. cbn. rewrite Hp. auto.
  - destruct (passes_check s b); do 2 eexists; (split; [reflexivity|]); cbn.
    + auto.
    + rewrite Hp. auto.
  - do 2 eexists. split; [reflexivity|]. cbn. rewrite Hp. auto.
Qed.

Lemma focus_handler_leaves_focus_on_recorded_witness :
  exists s' event',
    focus_handler (Sample.mounted_trap (Some 4%nat) 1%nat None)
      (mkFocusEvent TargetNull false false) = Normal (s', event') /\
    document_activeElement s' = previousActiveElement s' /\
    (previousActiveElement s' = Some 2%nat \/
     TargetNull = match previousActiveElement s' with
                  | Some b => TargetHTMLElement b
                  | None => TargetNull
                  end) /\
    event' = mkFocusEvent TargetNull false false.
Proof.
  apply (focus_handler_leaves_focus_on_recorded
           (Sample.mounted_trap (Some 4%nat) 1%nat None)
           (mkFocusEvent TargetNull false false) 2%nat).
  - vm_compute. reflexivity.
  - vm_compute. reflexivity.
  - vm_compute. reflexivity.
Defined.

(** Handling the same focus event a second time changes nothing more: the
    state and the event the handler leaves are those of the first time. *)
Theorem focus_handler_idempotent
    (s s' : State) (event event' : FocusEvent) :
  focus_handler s event = Normal (s', event') ->
  focus_handler s' event = Normal (s', event').
Proof.
  destruct (Features.has (features s) Features.FocusLock) eqn:HF.
  2: { unfold focus_handler. rewrite HF. cbn. intros [= <- <-].
       now rewrite HF. }
  destruct (previousActiveElement s) as [p|] eqn:Hp.
  2: { unfold focus_handler. rewrite HF, allContainers_size, Hp. cbn.
       intros [= <- <-]. now rewrite HF, allContainers_size, Hp. }
  destruct (mounted s) eqn:Hm.
  2: { unfold focus_handler. rewrite HF, allContainers_size, Hp, Hm. cbn.
       intros [= <- <-]. now rewrite HF, allContainers_size, Hp, Hm. }
  rewrite (focus_handler_engaged s event p HF Hp Hm).
  assert (Hsame : forall s1, same_session s s1 ->
            forall b, passes_check s1 b = passes_check s b).
  { intros s1 H1 b. now apply same_session_passes_check. }
  destruct (target event) as [|b|] eqn:Ht.
  - intros [= <- <-].
    rewrite (focus_handler_engaged _ event p); auto. rewrite Ht.
    now destruct s as [[] ? ? ? ? ? ? ?].
  - destruct (passes_check s b) eqn:Hb; intros [= <- <-].
    + rewrite (focus_handler_engaged _ event b); auto. rewrite Ht.
      rewrite Hsame, Hb by (repeat split).
      now destruct s as [[] ? ? ? ? ? ? ?].
    + rewrite (focus_handler_engaged _ event p); auto. rewrite Ht.
      rewrite Hsame, Hb by (repeat split).
      now destruct s as [[] ? ? ? ? ? ? ?].
  - intros [= <- <-].
    rewrite (focus_handler_engaged _ event p); auto. rewrite Ht.
    now destruct s as [[] ? ? ? ? ? ? ?].
Qed.

Lemma focus_handler_idempotent_witness :
  focus_handler
    (set_world (set_previousActiveElement
                  (Sample.mounted_trap (Some 4%nat) 1%nat None) (Some 3%nat))
       (set_active (world (Sample.mounted_trap (Some 4%nat) 1%nat None))
          (Some 3%nat)))
    (Sample.focus_on 3%nat) =
  Normal
    (set_world (set_previousActiveElement
                  (Sample.mounted_trap (Some 4%nat) 1%nat None) (Some 3%nat))
       (set_active (world (Sample.mounted_trap (Some 4%nat) 1%nat None))
          (Some 3%nat)),
     Sample.focus_on 3%nat).
Proof.
  apply (focus_handler_idempotent (Sample.mounted_trap (Some 4%nat) 1%nat None)).
  vm_compute. reflexivity.
Defined.

(** The focus event that a call of [focus()] by a handler raises for the
    element that is now focused and recorded leaves the state as it is. *)
Theorem focus_handler_own_notification
    (s : State) (a : Elem) (prevented stopped : bool) :
  document_activeElement s = Some a ->
  previousActiveElement s = Some a ->
  exists event',
    focus_handler s (mkFocusEvent (TargetHTMLElement a) prevented stopped)
    = Normal (s, event').
Proof.
  intros Ha Hp.
  destruct (Features.has (features s) Features.FocusLock) eqn:HF.
  2: { unfold focus_handler. rewrite HF. cbn. eauto. }
  destruct (mounted s) eqn:Hm.
  2: { unfold focus_handler. rewrite HF, allContainers_size, Hp, Hm. cbn. eauto. }
  rewrite (focus_handler_engaged s _ a HF Hp Hm). cbn [target].
  assert (E1 : set_world (set_previousActiveElement s (Some a))
                 (set_active (world s) (Some a)) = s).
  { destruct s as [[d act rf] c f o r p m i].
    unfold document_activeElement in *. cbn in *. now subst. }
  assert (E2 : set_world s (set_active (world s) (Some a)) = s).
  { destruct s as [[d act rf] c f o r p m i].
    unfold document_activeElement in *. cbn in *. now subst. }
  rewrite E1, E2. destruct (passes_check s a); eauto.
Qed.

Lemma focus_handler_own_notification_witness :
  exists event',
    focus_handler (Sample.mounted_trap (Some 4%nat) 1%nat None)
      (mkFocusEvent (TargetHTMLElement 2%nat) false false)
    = Normal (Sample.mounted_trap (Some 4%nat) 1%nat None, event').
Proof.
  apply (focus_handler_own_notification
           (Sample.mounted_trap (Some 4%nat) 1%nat None) 2%nat false false).
  - vm_compute. reflexivity.
  - vm_compute. reflexivity.
Defined.

(** A target inside any of the caller's extra containers is accepted, even
    when it is outside the trap's own container or that container is not
    mounted. *)
Theorem focus_handler_accepts_extra_container
    (s : State) (event : FocusEvent) (p b c : Elem) (r : RefId)
    (extra : gset RefId) :
  Features.has (features s) Features.FocusLock = true ->
  previousActiveElement s = Some p ->
  mounted s = true ->
  containers (options s) = Some extra ->
  r ∈ extra ->
  refs (world s) !! r = Some c ->
  node_contains (dom (world s)) c (Some b) = true ->
  target event = TargetHTMLElement b ->
  focus_handler s event =
    Normal (set_world (set_previousActiveElement s (Some b))
              (set_active (world s) (Some b)), event).
Proof.
  intros HF Hp Hm Hx Hr Hc Hb Ht.
  rewrite (focus_handler_engaged s event p HF Hp Hm), Ht.
  replace (passes_check s b) with true; [reflexivity|].
  symmetry. unfold passes_check.
  destruct (contains_spec (world s) (allContainers s) b) as (x & -> & I).
  apply I. exists r, c. split; [|auto].
  unfold allContainers. rewrite Hx. cbn. apply elem_of_union. now left.
Qed.

Lemma focus_handler_accepts_extra_container_witness :
  focus_handler Sample.trap_with_extra_container (Sample.focus_on 6%nat) =
  Normal
    (set_world
       (set_previousActiveElement Sample.trap_with_extra_container (Some 6%nat))
       (set_active (world Sample.trap_with_extra_container) (Some 6%nat)),
     Sample.focus_on 6%nat).
Proof.
  apply (focus_handler_accepts_extra_container
           Sample.trap_with_extra_container (Sample.focus_on 6%nat)
           2%nat 6%nat 5%nat 12%nat {[ 12%nat ]}).
  - vm_compute. reflexivity.
  - reflexivity.
  - reflexivity.
  - reflexivity.
  - apply elem_of_singleton. reflexivity.
  - vm_compute. reflexivity.
  - vm_compute. reflexivity.
  - reflexivity.
Defined.

(** ** Arming and restoring over a session *)

Lemma same_arming_refl (s : State) : same_arming s s.
Proof. repeat split. Qed.

Lemma same_arming_trans (s1 s2 s3 : State) :
  same_arming s1 s2 -> same_arming s2 s3 -> same_arming s1 s3.
Proof. unfold same_arming. intuition congruence. Qed.

Lemma initial_focus_watcher_same_arming (n p : list WVal) (s : State) :
  same_arming s (state_of (initial_focus_watcher n p s)).
Proof.
  unfold initial_focus_watcher.
  destruct (unchanged n p); [apply same_arming_refl|].
  destruct (negb _); [apply same_arming_refl|].
  destruct (container_value s) as [c|]; [|apply same_arming_refl].
  destruct (match initialFocus_value s with Some _ => _ | None => _ end);
    [repeat split|].
  destruct (initialFocus_value s) as [t|]; [repeat split|].
  destruct (focusIn _ _ _) as [[|] w']; repeat split.
Qed.

Lemma dispatch_same_arming (s s' : State) (e : Event) :
  dispatch s e = Normal s' -> same_arming s s'.
Proof.
  destruct e as [event|event]; cbn [dispatch].
  - intros [= <-]. unfold keydown_handler.
    destruct (negb _); [apply same_arming_refl|].
    destruct (container_value s) as [c|]; [|apply same_arming_refl].
    destruct (negb _); [apply same_arming_refl|].
    destruct (focusIn _ _ _) as [[|] w']; repeat split.
  - unfold focus_handler.
    destruct (negb _); [intros [= <-]; apply same_arming_refl|].
    destruct (Nat.eqb _ _); [intros [= <-]; apply same_arming_refl|].
    destruct (previousActiveElement s) as [previous|];
      [|intros [= <-]; apply same_arming_refl].
    destruct (negb _); [intros [= <-]; apply same_arming_refl|].
    destruct (target event) as [|toElement|];
      try (intros [= <-]; repeat split).
    destruct (contains _ _ _) as [[|]|]; [| |discriminate];
      intros [= <-]; repeat split.
Qed.

(** Window events are always handled to the end, and they neither arm nor
    disarm the session. *)
Lemma run_same_arming (events : list Event) (s : State) :
  exists s', run s events = Normal s' /\ same_arming s s' /\ same_session s s'.
Proof.
  revert s. induction events as [|e events IH]; intros s; cbn [run].
  - exists s. split; [reflexivity|]. split; [apply same_arming_refl|auto].
  - destruct (dispatch_same_session s e) as (s1 & E & Hs & _). rewrite E.
    destruct (IH s1) as (s2 & E2 & Ha2 & Hs2). exists s2. split; [exact E2|].
    split.
    + eapply same_arming_trans; [eapply dispatch_same_arming; eauto|exact Ha2].
    + eapply same_session_trans; eauto.
Qed.

(** With [RestoreFocus] enabled, mounting, then any window events, then
    unmounting gives focus back to the element that was focused when the
    mounted hook ran (nothing moves if there was none), and leaves the
    session disarmed: [mounted] is [false], [restoreElement] is [null], and
    unmounting once more does nothing.  This holds whether or not the
    initial-focus watcher threw. *)
Theorem mount_then_unmount_restores_focus (s : State) (events : list Event) :
  featuresRestoreFocus s = true ->
  exists s',
    run (state_of (onMounted s)) events = Normal s' /\
    world (unmount s') = focusElement (world s') (document_activeElement s) /\
    (forall e, document_activeElement s = Some e ->
               document_activeElement (unmount s') = Some e) /\
    mounted (unmount s') = false /\
    restoreElement (unmount s') = None /\
    invalidate (unmount s') = false /\
    unmount (unmount s') = unmount s'.
Proof.
  intros HR.
  assert (Harm : restoreElement (state_of (onMounted s)) = document_activeElement s /\
                 mounted (state_of (onMounted s)) = true /\
                 invalidate (state_of (onMounted s)) = true).
  { unfold onMounted.
    set (s1 := arm_watcher _ _ s). set (s2 := restore_watcher _ _ s1).
    destruct (initial_focus_watcher_same_arming (initial_focus_sources s2) [] s2)
      as (-> & -> & ->).
    unfold s2, s1, restore_watcher, arm_watcher, restore_sources.
    rewrite HR. cbn.
    unfold featuresRestoreFocus in *. cbn. rewrite HR. cbn. auto. }
  destruct Harm as (Hr & Hm & Hi).
  destruct (run_same_arming events (state_of (onMounted s)))
    as (s' & E & (Hr' & Hm' & Hi') & _).
  exists s'. split; [exact E|].
  rewrite Hr in Hr'. rewrite Hm in Hm'. rewrite Hi in Hi'.
  unfold unmount. rewrite Hi'. unfold restore_cleanup.
  cbn [mounted set_invalidate]. rewrite Hm'. cbn.
  rewrite Hr'. repeat split.
  intros e ->. reflexivity.
Qed.

Lemma mount_then_unmount_restores_focus_witness :
  exists s',
    run (state_of (onMounted (Sample.rendered_trap (Some 4%nat) 1%nat None)))
      [ Keydown (Sample.press "Tab" false); FocusChange (Sample.focus_on 5%nat) ]
    = Normal s' /\
    document_activeElement (unmount s') = Some 4%nat.
Proof.
  destruct (mount_then_unmount_restores_focus
              (Sample.rendered_trap (Some 4%nat) 1%nat None)
              [ Keydown (Sample.press "Tab" false);
                FocusChange (Sample.focus_on 5%nat) ])
    as (s' & E & _ & H & _).
  - vm_compute. reflexivity.
  - exists s'. split; [exact E|]. apply H. vm_compute. reflexivity.
Defined.

(** ** What the flags gate *)

Lemma perform_same_session (s : State) (a : Step) :
  match a with Render _ => False | _ => True end ->
  same_session s (perform s a).
Proof.
  destruct a as [el| |e|]; cbn [perform]; intros H.
  - contradiction.
  - apply onMounted_same_session.
  - destruct (dispatch_same_session s e) as (s' & -> & Hs & _). exact Hs.
  - apply unmount_same_session.
Qed.

(** No step of the engine touches the arguments of [useFocusTrap], the
    trees of the document or the template references: whatever the steps,
    short of the renderer writing the container reference, the engine only
    moves focus and updates its own three variables. *)
Theorem session_same_session (s : State) (steps : list Step) :
  no_render steps -> same_session s (session s steps).
Proof.
  unfold session, no_render. revert s.
  induction steps as [|a steps IH]; intros s H; cbn [fold_left]; [auto|].
  inversion H as [|? ? Ha Hrest]; subst.
  eapply same_session_trans; [apply perform_same_session; exact Ha|].
  now apply IH.
Qed.

Lemma session_same_session_witness :
  same_session (Sample.rendered_trap (Some 4%nat) 1%nat None)
    (session (Sample.rendered_trap (Some 4%nat) 1%nat None)
       [Mounted; Window (Keydown (Sample.press "Tab" false)); Unmounted]).
Proof.
  apply session_same_session. repeat constructor.
Defined.

(** With none of the four flags set (for instance with [Features.None]) a
    session that has no cleanup registered does nothing at all: the mounted
    hook, every key-down and focus event and unmounting leave the state
    exactly as it was. *)
Theorem session_without_features_is_inert (s : State) (steps : list Step) :
  Forall (fun F => Features.has (features s) F = false) Features.flags ->
  invalidate s = false ->
  no_render steps ->
  session s steps = s.
Proof.
  intros HF Hi. unfold Features.flags in HF.
  inversion HF as [|? ? HI HF1]; subst. inversion HF1 as [|? ? HT HF2]; subst.
  inversion HF2 as [|? ? HL HF3]; subst. inversion HF3 as [|? ? HR _]; subst.
  clear HF HF1 HF2 HF3.
  unfold session, no_render.
  induction steps as [|a steps IH]; intros H; cbn [fold_left]; [reflexivity|].
  inversion H as [|? ? Ha Hrest]; subst.
  assert (E : perform s a = s).
  { destruct a as [el| |[event|event]|]; cbn [perform dispatch].
    - contradiction.
    - assert (Ea : forall n p, arm_watcher n p s = s).
      { intros n p. unfold arm_watcher, featuresRestoreFocus. rewrite HR.
        now destruct (unchanged n p). }
      assert (Er : forall n p, restore_watcher n p s = s).
      { intros n p. unfold restore_watcher, featuresRestoreFocus. rewrite HR.
        now destruct (unchanged n p). }
      unfold onMounted. rewrite Ea, Er.
      unfold initial_focus_watcher, featuresInitialFocus. rewrite HI.
      now destruct (unchanged _ _).
    - unfold keydown_handler. now rewrite HT.
    - unfold focus_handler. now rewrite HL.
    - unfold unmount. now rewrite Hi. }
  rewrite E. now apply IH.
Qed.

Lemma session_without_features_is_inert_witness :
  session
    (set_world
       (useFocusTrap true (Sample.document (Some 4%nat)) Sample.containerRef
          Features.None (mkOptions 0 None None))
       (set_ref (Sample.document (Some 4%nat)) Sample.containerRef (Some 1%nat)))
    [ Mounted; Window (Keydown (Sample.press "Tab" false));
      Window (FocusChange (Sample.focus_on 4%nat)); Unmounted ]
  = set_world
      (useFocusTrap true (Sample.document (Some 4%nat)) Sample.containerRef
         Features.None (mkOptions 0 None None))
      (set_ref (Sample.document (Some 4%nat)) Sample.containerRef (Some 1%nat)).
Proof.
  apply session_without_features_is_inert.
  - repeat constructor.
  - reflexivity.
  - repeat constructor.
Defined.

Lemma perform_unarmed (s : State) (a : Step) :
  featuresRestoreFocus s = false -> mounted s = false ->
  featuresRestoreFocus (perform s a) = false /\ mounted (perform s a) = false.
Proof.
  intros HR Hm. split.
  - unfold featuresRestoreFocus in *. now rewrite perform_features.
  - destruct a as [el| |e|]; cbn [perform].
    + exact Hm.
    + unfold onMounted.
      destruct (initial_focus_watcher_same_arming
                  (initial_focus_sources
                     (restore_watcher (restore_sources (arm_watcher (restore_sources s) [] s))
                        [] (arm_watcher (restore_sources s) [] s)))
                  []
                  (restore_watcher (restore_sources (arm_watcher (restore_sources s) [] s))
                     [] (arm_watcher (restore_sources s) [] s)))
        as (_ & -> & _).
      unfold restore_watcher, arm_watcher. rewrite HR. cbn [negb].
      repeat (destruct (unchanged _ _)); try exact Hm.
      all: rewrite ?HR; cbn [negb]; exact Hm.
    + destruct (dispatch_same_session s e) as (s' & -> & _ & ->). exact Hm.
    + unfold unmount. destruct (invalidate s); [|exact Hm].
      unfold restore_cleanup. cbn [mounted set_invalidate]. now rewrite Hm.
Qed.

(** [FocusLock] depends on [RestoreFocus]: the flag [mounted] is only ever
    set by the watcher that [RestoreFocus] gates, so in a session started
    without [RestoreFocus] the focus handler ignores every focus event,
    whatever else is enabled and whatever happened before. *)
Theorem focus_lock_needs_restore_focus
    (s : State) (steps : list Step) (event : FocusEvent) :
  featuresRestoreFocus s = false ->
  mounted s = false ->
  mounted (session s steps) = false /\
  focus_handler (session s steps) event = Normal (session s steps, event).
Proof.
  intros HR Hm.
  assert (H : featuresRestoreFocus (session s steps) = false /\
              mounted (session s steps) = false).
  { unfold session. revert s HR Hm.
    induction steps as [|a steps IH]; intros s HR Hm; cbn [fold_left]; [auto|].
    destruct (perform_unarmed s a HR Hm) as [HR' Hm']. now apply IH. }
  destruct H as [_ Hm']. split; [exact Hm'|].
  unfold focus_handler. rewrite Hm'.
  destruct (negb _); [reflexivity|]. destruct (Nat.eqb _ _); [reflexivity|].
  now destruct (previousActiveElement _).
Qed.

Lemma focus_lock_needs_restore_focus_witness :
  focus_handler
    (session
       (useFocusTrap true (Sample.document (Some 4%nat)) Sample.containerRef
          (Z.lor Features.InitialFocus Features.FocusLock) (mkOptions 0 None None))
       [Render (Some 1%nat); Mounted])
    (Sample.focus_on 4%nat)
  = Normal
      (session
         (useFocusTrap true (Sample.document (Some 4%nat)) Sample.containerRef
            (Z.lor Features.InitialFocus Features.FocusLock) (mkOptions 0 None None))
         [Render (Some 1%nat); Mounted],
       Sample.focus_on 4%nat).
Proof.
  apply focus_lock_needs_restore_focus.
  - vm_compute. reflexivity.
  - vm_compute. reflexivity.
Defined.

Lemma perform_nothing_recorded (s : State) (a : Step) :
  featuresInitialFocus s = false ->
  Features.has (features s) Features.TabLock = false ->
  previousActiveElement s = None ->
  previousActiveElement (perform s a) = None.
Proof.
  intros HI HT Hp.
  destruct a as [el| |[event|event]|]; cbn [perform dispatch].
  - exact Hp.
  - unfold onMounted, initial_focus_watcher.
    set (s1 := arm_watcher _ _ s). set (s2 := restore_watcher _ _ s1).
    assert (H2 : featuresInitialFocus s2 = false /\ previousActiveElement s2 = None).
    { unfold s2, s1, restore_watcher, arm_watcher, featuresInitialFocus in *.
      repeat (destruct (unchanged _ _) || destruct (negb _)); auto. }
    destruct H2 as [HI2 Hp2]. rewrite HI2. cbn [negb].
    now destruct (unchanged _ _).
  - unfold keydown_handler. now rewrite HT.
  - unfold focus_handler. rewrite Hp.
    destruct (negb _); [exact Hp|]. now destruct (Nat.eqb _ _).
  - unfold unmount. destruct (invalidate s); [|exact Hp].
    unfold restore_cleanup. now destruct (Bool.eqb _ _).
Qed.

(** [FocusLock] also depends on a recorded element: it is [InitialFocus]
    and [TabLock] that record one, so in a session with neither of them
    nothing is ever recorded and the focus handler ignores every focus
    event. *)
Theorem focus_lock_needs_recorded_element
    (s : State) (steps : list Step) (event : FocusEvent) :
  featuresInitialFocus s = false ->
  Features.has (features s) Features.TabLock = false ->
  previousActiveElement s = None ->
  previousActiveElement (session s steps) = None /\
  focus_handler (session s steps) event = Normal (session s steps, event).
Proof.
  intros HI HT Hp.
  assert (H : previousActiveElement (session s steps) = None).
  { unfold session. revert s HI HT Hp.
    induction steps as [|a steps IH]; intros s HI HT Hp; cbn [fold_left]; [auto|].
    apply IH.
    - unfold featuresInitialFocus in *. now rewrite perform_features.
    - now rewrite perform_features.
    - now apply perform_nothing_recorded. }
  split; [exact H|]. unfold focus_handler. rewrite H.
  destruct (negb _); [reflexivity|]. now destruct (Nat.eqb _ _).
Qed.

Lemma focus_lock_needs_recorded_element_witness :
  previousActiveElement
    (session
       (useFocusTrap true (Sample.document (Some 4%nat)) Sample.containerRef
          (Z.lor Features.FocusLock Features.RestoreFocus) (mkOptions 0 None None))
       [Render (Some 1%nat); Mounted; Window (Keydown (Sample.press "Tab" false))])
  = None.
Proof.
  apply (focus_lock_needs_recorded_element _ _ (Sample.focus_on 4%nat)).
  - vm_compute. reflexivity.
  - vm_compute. reflexivity.
  - reflexivity.
Defined.

(** * Properties of the [Combobox] state *)

(** ** Opening and closing *)

(** In every state closing twice is closing once and opening twice is
    opening once; and opening a closed combobox that has no active option
    (as a closed combobox has) and closing it again gives back the state it
    started from. *)
Theorem open_close_round_trip (s : Combobox.State) :
  Combobox.closeCombobox (Combobox.closeCombobox s) = Combobox.closeCombobox s /\
  Combobox.openCombobox (Combobox.openCombobox s) = Combobox.openCombobox s /\
  (Combobox.ComboboxState s = Combobox.Closed ->
   Combobox.activeOptionIndex s = None ->
   Combobox.closeCombobox (Combobox.openCombobox s) = s).
Proof.
  destruct s as [d c o q a i e n].
  unfold Combobox.closeCombobox, Combobox.openCombobox. cbn.
  destruct d, c; cbn; repeat split; try reflexivity; intros; subst;
    try reflexivity; discriminate.
Qed.

Lemma open_close_round_trip_witness :
  Combobox.closeCombobox (Combobox.openCombobox (Combobox.initial false None))
  = Combobox.initial false None.
Proof.
  apply (open_close_round_trip (Combobox.initial false None)); reflexivity.
Defined.

(** Closing an open combobox with an active option clears it, and closing
    again changes nothing more. *)
Example close_twice_is_close_once :
  Combobox.closeCombobox
    (Combobox.closeCombobox
       (Combobox.mkState false Combobox.Open [] "q" (Some 3) None [] 0))
  = Combobox.mkState false Combobox.Closed [] "q" None None [] 0.
Proof. reflexivity. Qed.

(** While [props.disabled] is set, [closeCombobox], [openCombobox],
    [goToOption] and [select] change nothing and emit nothing, whatever
    sequence of them is called. *)
Theorem disabled_combobox_ignores_calls
    (calculateActiveIndex : Combobox.Calculate) (s : Combobox.State)
    (cs : list Combobox.Call) :
  Combobox.props_disabled s = true ->
  Forall (fun c => match c with
                   | Combobox.CloseCombobox | Combobox.OpenCombobox
                   | Combobox.GoToOption _ _ | Combobox.Select _ => True
                   | _ => False
                   end) cs ->
  Combobox.calls calculateActiveIndex s cs = Normal s.
Proof.
  intros Hd H. induction H as [|c cs Hc _ IH]; cbn [Combobox.calls]; [reflexivity|].
  destruct c; try contradiction; cbn [Combobox.call].
  - unfold Combobox.closeCombobox. now rewrite Hd.
  - unfold Combobox.openCombobox. now rewrite Hd.
  - unfold Combobox.goToOption. now rewrite Hd.
  - unfold Combobox.select. now rewrite Hd.
Qed.

Lemma disabled_combobox_ignores_calls_witness :
  Combobox.calls (fun _ _ _ => Some 0) (Combobox.initial true None)
    [ Combobox.OpenCombobox; Combobox.GoToOption Combobox.First None;
      Combobox.Select (JSString "a"); Combobox.CloseCombobox ]
  = Normal (Combobox.initial true None).
Proof.
  apply disabled_combobox_ignores_calls.
  - reflexivity.
  - repeat constructor.
Defined.

(** ** A closed combobox has no active option *)

Lemma emit_value_frame (s : Combobox.State) (d : Combobox.DataRef) :
  Combobox.ComboboxState (Combobox.emit_value s d) = Combobox.ComboboxState s /\
  Combobox.activeOptionIndex (Combobox.emit_value s d) = Combobox.activeOptionIndex s /\
  Combobox.options (Combobox.emit_value s d) = Combobox.options s /\
  Combobox.allocated (Combobox.emit_value s d) = Combobox.allocated s.
Proof.
  unfold Combobox.emit_value.
  destruct (Combobox.value d); cbn; auto.
  destruct (Combobox.input s); cbn; auto.
Qed.

Lemma call_closed_inactive
    (calculateActiveIndex : Combobox.Calculate) (s s' : Combobox.State)
    (c : Combobox.Call) :
  Combobox.call calculateActiveIndex s c = Normal s' ->
  Combobox.closed_inactive s -> Combobox.closed_inactive s'.
Proof.
  unfold Combobox.closed_inactive.
  destruct c; cbn [Combobox.call].
  - intros [= <-]. unfold Combobox.closeCombobox.
    destruct (Combobox.props_disabled s); [auto|].
    destruct (Combobox.is_Closed _); auto.
  - intros [= <-]. unfold Combobox.openCombobox.
    destruct (Combobox.props_disabled s); [auto|].
    destruct (Combobox.is_Open _); [auto|]. cbn. discriminate.
  - intros [= <-]. unfold Combobox.goToOption.
    destruct (Combobox.props_disabled s); [auto|].
    destruct (Combobox.ComboboxState s) eqn:E; cbn [Combobox.is_Closed]; [|auto].
    destruct (_ && _); cbn; congruence.
  - intros [= <-]. unfold Combobox.selectOption.
    destruct (Combobox.find_by_id _ _); [|auto].
    destruct (emit_value_frame s (Combobox.dataRef o)) as (-> & -> & _). auto.
  - unfold Combobox.selectActiveOption.
    destruct (Combobox.activeOptionIndex s) as [i|] eqn:E; [|now intros [= <-]].
    destruct (Combobox.at_index _ _); [|discriminate]. intros [= <-].
    destruct (emit_value_frame s (Combobox.dataRef o)) as (-> & -> & _).
    rewrite E. auto.
  - intros [= <-]. auto.
  - intros [= <-] H Hc. cbn in Hc. specialize (H Hc).
    unfold Combobox.unregisterOption. cbn. now rewrite H.
  - intros [= <-]. unfold Combobox.select.
    destruct (Combobox.props_disabled s); auto.
  - intros [= <-]. auto.
Qed.

(** Whatever mutators are called, in whatever order, and whatever
    [calculateActiveIndex] answers, a combobox that is closed has no active
    option: [activeOptionIndex] is [null] whenever [ComboboxState] is
    [Closed]. *)
Theorem closed_combobox_has_no_active_option
    (calculateActiveIndex : Combobox.Calculate) (cs : list Combobox.Call)
    (s s' : Combobox.State) :
  Combobox.closed_inactive s ->
  Combobox.calls calculateActiveIndex s cs = Normal s' ->
  Combobox.closed_inactive s'.
Proof.
  revert s. induction cs as [|c cs IH]; intros s Hs; cbn [Combobox.calls].
  - now intros [= <-].
  - destruct (Combobox.call calculateActiveIndex s c) as [s1|m] eqn:E;
      [|discriminate].
    apply IH. eapply call_closed_inactive; eauto.
Qed.

Lemma closed_combobox_has_no_active_option_witness :
  Combobox.closed_inactive (Combobox.initial false None).
Proof.
  apply (closed_combobox_has_no_active_option (fun _ _ _ => Some 0)
           [ Combobox.OpenCombobox; Combobox.GoToOption Combobox.First None;
             Combobox.CloseCombobox ]
           (Combobox.initial false None)).
  - intros _. reflexivity.
  - vm_compute. reflexivity.
Defined.

(** ** Arrays of options *)

Lemma findIndex_by_id_range (l : list Combobox.OptionEntry) (k : string) :
  Combobox.findIndex_by_id l k = -1 \/
  0 <= Combobox.findIndex_by_id l k < Z.of_nat (List.length l).
Proof.
  induction l as [|a l IH]; cbn [Combobox.findIndex_by_id List.length]; [now left|].
  destruct (String.eqb _ _); [right; lia|].
  destruct (Z.eqb_spec (Combobox.findIndex_by_id l k) (-1)); [now left|].
  right. lia.
Qed.

Lemma findIndex_by_id_none (l : list Combobox.OptionEntry) (k : string) :
  (forall e, In e l -> Combobox.id e <> k) -> Combobox.findIndex_by_id l k = -1.
Proof.
  induction l as [|a l IH]; intros H; cbn [Combobox.findIndex_by_id]; [reflexivity|].
  destruct (String.eqb_spec (Combobox.id a) k) as [E|_].
  - exfalso. apply (H a); [now left|exact E].
  - rewrite IH; [reflexivity|]. intros e He. apply H. now right.
Qed.

Lemma indexOf_range (l : list Combobox.OptionEntry) (o : nat) :
  Combobox.indexOf l o = -1 \/
  0 <= Combobox.indexOf l o < Z.of_nat (List.length l).
Proof.
  induction l as [|a l IH]; cbn [Combobox.indexOf List.length]; [now left|].
  destruct (Nat.eqb _ _); [right; lia|].
  destruct (Z.eqb_spec (Combobox.indexOf l o) (-1)); [now left|].
  right. lia.
Qed.

(** An object that is in the array is found. *)
Lemma indexOf_In (l : list Combobox.OptionEntry) (e : Combobox.OptionEntry) :
  In e l ->
  0 <= Combobox.indexOf l (Combobox.object e) < Z.of_nat (List.length l).
Proof.
  induction l as [|a l IH]; intros H; [destruct H|].
  cbn [Combobox.indexOf List.length].
  destruct (Nat.eqb_spec (Combobox.object a) (Combobox.object e)); [lia|].
  destruct H as [->|H]; [congruence|].
  specialize (IH H).
  destruct (Z.eqb_spec (Combobox.indexOf l (Combobox.object e)) (-1)); lia.
Qed.

Lemma at_index_nth (l : list Combobox.OptionEntry) (i : Z) (e : Combobox.OptionEntry) :
  Combobox.at_index l i = Some e <-> 0 <= i /\ nth_error l (Z.to_nat i) = Some e.
Proof.
  unfold Combobox.at_index. destruct (Z.ltb_spec i 0); split.
  - discriminate.
  - intros [? _]. lia.
  - auto.
  - now intros [_ ?].
Qed.

Lemma at_index_in_range (l : list Combobox.OptionEntry) (i : Z) :
  0 <= i < Z.of_nat (List.length l) -> exists e, Combobox.at_index l i = Some e.
Proof.
  intros H. destruct (nth_error l (Z.to_nat i)) as [e|] eqn:E.
  - exists e. apply at_index_nth. split; [lia|exact E].
  - apply nth_error_None in E. lia.
Qed.

(** What [indexOf] finds is an entry that is that object. *)
Lemma indexOf_found (l : list Combobox.OptionEntry) (o : nat) :
  0 <= Combobox.indexOf l o ->
  exists e, nth_error l (Z.to_nat (Combobox.indexOf l o)) = Some e /\
            Combobox.object e = o.
Proof.
  induction l as [|a l IH]; cbn [Combobox.indexOf]; [lia|].
  destruct (Nat.eqb_spec (Combobox.object a) o) as [E|_].
  - intros _. exists a. split; [reflexivity|exact E].
  - destruct (Z.eqb_spec (Combobox.indexOf l o) (-1)); [lia|].
    intros _. pose proof (indexOf_range l o) as [H|H]; [lia|].
    destruct IH as (e & He & Ho); [lia|]. exists e. split; [|exact Ho].
    replace (Z.to_nat (Combobox.indexOf l o + 1))
      with (S (Z.to_nat (Combobox.indexOf l o))) by lia.
    exact He.
Qed.

Lemma splice1_In_other (l : list Combobox.OptionEntry) (a idx : nat)
    (o : Combobox.OptionEntry) :
  nth_error l a = Some o -> a <> idx -> In o (Combobox.splice1 l idx).
Proof.
  revert a idx. induction l as [|x l IH]; intros a idx H Hne.
  - now destruct a.
  - destruct idx as [|idx]; destruct a as [|a]; cbn in *.
    + congruence.
    + eapply nth_error_In; eauto.
    + left. congruence.
    + right. apply (IH a idx); [exact H|congruence].
Qed.

Lemma splice1_incl (l : list Combobox.OptionEntry) (idx : nat)
    (o : Combobox.OptionEntry) :
  In o (Combobox.splice1 l idx) -> In o l.
Proof.
  revert idx. induction l as [|x l IH]; intros idx H; [destruct idx; exact H|].
  destruct idx as [|idx]; cbn in H; [now right|].
  destruct H as [->|H]; [now left|right; eauto].
Qed.

Lemma splice1_length (l : list Combobox.OptionEntry) (idx : nat) :
  (idx < List.length l)%nat ->
  S (List.length (Combobox.splice1 l idx)) = List.length l.
Proof.
  revert idx. induction l as [|x l IH]; intros idx H; cbn in *; [lia|].
  destruct idx as [|idx]; cbn; [reflexivity|]. rewrite IH; [reflexivity|lia].
Qed.

(** ** Sorting *)

Lemma sort_insert_Permutation
    (compare : Combobox.OptionEntry -> Combobox.OptionEntry -> option Z)
    (x : Combobox.OptionEntry) (l : list Combobox.OptionEntry) :
  Permutation (Combobox.sort_insert compare x l) (x :: l).
Proof.
  induction l as [|y l IH]; cbn [Combobox.sort_insert]; [reflexivity|].
  destruct (Combobox.before compare x y); [reflexivity|].
  rewrite IH. apply perm_swap.
Qed.

Lemma sort_from_Permutation
    (compare : Combobox.OptionEntry -> Combobox.OptionEntry -> option Z)
    (l acc : list Combobox.OptionEntry) :
  Permutation
    (fold_left (fun sorted x => Combobox.sort_insert compare x sorted) l acc)
    (acc ++ l).
Proof.
  revert acc. induction l as [|x l IH]; intros acc; cbn [fold_left].
  - now rewrite app_nil_r.
  - rewrite IH, sort_insert_Permutation.
    change (x :: acc) with ([x] ++ acc).
    rewrite (Permutation_app_comm [x] acc), <- app_assoc. reflexivity.
Qed.

(** Sorting never loses, adds or duplicates an entry, whatever the
    comparator answers. *)
Lemma sort_Permutation
    (compare : Combobox.OptionEntry -> Combobox.OptionEntry -> option Z)
    (l : list Combobox.OptionEntry) :
  Permutation (Combobox.sort compare l) l.
Proof. unfold Combobox.sort. now rewrite sort_from_Permutation. Qed.

Section DocumentOrder.

Variable queried : option (list string).

Let known (e : Combobox.OptionEntry) : Prop :=
  is_Some (Combobox.orderMap queried !! Combobox.id e).

Let ordered (a z : Combobox.OptionEntry) : Prop :=
  (Combobox.position queried a <= Combobox.position queried z)%nat.

Lemma before_position (a z : Combobox.OptionEntry) :
  known a -> known z ->
  Combobox.before (Combobox.compare_order (Combobox.orderMap queried)) a z =
    (Combobox.position queried a <? Combobox.position queried z)%nat.
Proof.
  unfold known, Combobox.before, Combobox.compare_order, Combobox.position.
  intros [x ->] [y ->].
  change ((Z.of_nat x - Z.of_nat y <? 0) = (x <? y)%nat).
  destruct (Nat.ltb_spec x y); destruct (Z.ltb_spec (Z.of_nat x - Z.of_nat y) 0);
    try reflexivity; lia.
Qed.

Lemma sort_insert_HdRel (y x : Combobox.OptionEntry) (l : list Combobox.OptionEntry) :
  ordered y x -> HdRel ordered y l ->
  HdRel ordered y
    (Combobox.sort_insert (Combobox.compare_order (Combobox.orderMap queried)) x l).
Proof.
  intros Hyx H. destruct l as [|z l]; cbn [Combobox.sort_insert].
  - now constructor.
  - destruct (Combobox.before _ x z); constructor; [exact Hyx|].
    now inversion H.
Qed.

Lemma sort_insert_Sorted (x : Combobox.OptionEntry) (l : list Combobox.OptionEntry) :
  known x -> Forall known l -> Sorted ordered l ->
  Sorted ordered
    (Combobox.sort_insert (Combobox.compare_order (Combobox.orderMap queried)) x l).
Proof.
  intros Hx Hl Hs. induction l as [|y l IH]; cbn [Combobox.sort_insert].
  - repeat constructor.
  - inversion Hl as [|? ? Hy Hl']; subst. inversion Hs as [|? ? Hs' Hd]; subst.
    rewrite (before_position x y Hx Hy).
    destruct (Nat.ltb_spec (Combobox.position queried x) (Combobox.position queried y)).
    + constructor; [exact Hs|]. constructor. unfold ordered. lia.
    + constructor; [now apply IH|].
      apply sort_insert_HdRel; [unfold ordered; lia|exact Hd].
Qed.

Lemma sort_from_Sorted (l acc : list Combobox.OptionEntry) :
  Forall known l -> Forall known acc -> Sorted ordered acc ->
  Sorted ordered
    (fold_left
       (fun sorted x =>
          Combobox.sort_insert (Combobox.compare_order (Combobox.orderMap queried))
            x sorted) l acc).
Proof.
  revert acc. induction l as [|x l IH]; intros acc Hl Ha Hs; cbn [fold_left];
    [exact Hs|].
  inversion Hl as [|? ? Hx Hl']; subst.
  apply IH; [exact Hl'| |now apply sort_insert_Sorted].
  rewrite Forall_forall in *. intros e He.
  rewrite list_elem_of_In in He.
  apply (Permutation_in _ (sort_insert_Permutation _ x acc)) in He.
  destruct He as [<-|He]; [exact Hx|]. apply Ha. now apply list_elem_of_In.
Qed.

(** When every id is known to [orderMap], the sorted array is ordered by
    the index [orderMap] gives. *)
Lemma sort_StronglySorted (l : list Combobox.OptionEntry) :
  Forall known l ->
  StronglySorted ordered
    (Combobox.sort (Combobox.compare_order (Combobox.orderMap queried)) l).
Proof.
  intros Hl. apply Sorted_StronglySorted.
  - intros a b c. unfold ordered. lia.
  - apply sort_from_Sorted; [exact Hl|constructor|constructor].
Qed.

End DocumentOrder.

(** Every queried id gets an index. *)
Lemma orderMap_from_known (elements : list string) (index : nat)
    (lookup : gmap string nat) (k : string) :
  is_Some (lookup !! k) \/ In k elements ->
  is_Some (Combobox.orderMap_from index elements lookup !! k).
Proof.
  revert index lookup.
  induction elements as [|x elements IH]; intros index lookup H;
    cbn [Combobox.orderMap_from].
  - destruct H as [H|[]]. exact H.
  - apply IH. destruct (decide (x = k)) as [->|Hne].
    + left. rewrite lookup_insert_eq. eauto.
    + destruct H as [H|[H|H]]; [left|congruence|now right].
      now rewrite lookup_insert_ne.
Qed.

(** In a document whose ids are distinct, the index of an id is its
    position among the queried elements. *)
Lemma orderMap_from_position (elements : list string) (index : nat)
    (lookup : gmap string nat) (k : string) (j : nat) :
  NoDup elements -> nth_error elements j = Some k ->
  Combobox.orderMap_from index elements lookup !! k = Some (index + j)%nat.
Proof.
  revert index lookup j.
  induction elements as [|x elements IH]; intros index lookup j Hnd Hj;
    [now destruct j|].
  cbn [Combobox.orderMap_from]. apply NoDup_cons in Hnd as [Hx Hnd].
  destruct j as [|j]; cbn in Hj.
  - injection Hj as ->. clear IH.
    assert (G : forall els i m, k ∉ els -> m !! k = Some (index + 0)%nat ->
                Combobox.orderMap_from i els m !! k = Some (index + 0)%nat).
    { induction els as [|y els IHe]; intros i m Hk Hm; cbn; [exact Hm|].
      apply not_elem_of_cons in Hk as [Hky Hk].
      apply IHe; [exact Hk|]. now rewrite lookup_insert_ne. }
    apply G; [exact Hx|]. rewrite lookup_insert_eq. f_equal. lia.
  - rewrite (IH (S index) _ j Hnd Hj). f_equal. lia.
Qed.

(** ** Registering options *)

(** [registerOption] adds exactly the new entry, as a fresh object, and
    keeps every entry it had, whatever the query found and whatever ids the
    options have; when the ids of all entries are among the queried
    elements, the entries end up ordered by the index [orderMap] gives them,
    which for distinct element ids is the position of the option's element
    in the document. *)
Theorem registerOption_orders_by_document
    (s : Combobox.State) (queried : option (list string)) (id' : string)
    (d : Combobox.DataRef) :
  Permutation
    (Combobox.options (Combobox.registerOption s queried id' d))
    (Combobox.options s ++ [Combobox.mkOption (Combobox.allocated s) id' d]) /\
  (Forall (fun e => In (Combobox.id e) (default [] queried)) (Combobox.options s) ->
   In id' (default [] queried) ->
   StronglySorted
     (fun a z => (Combobox.position queried a <= Combobox.position queried z)%nat)
     (Combobox.options (Combobox.registerOption s queried id' d)) /\
   (NoDup (default [] queried) ->
    forall e j,
      In e (Combobox.options (Combobox.registerOption s queried id' d)) ->
      nth_error (default [] queried) j = Some (Combobox.id e) ->
      Combobox.position queried e = j)).
Proof.
  cbn [Combobox.registerOption Combobox.options Combobox.set_options].
  split; [apply sort_Permutation|]. intros Hl Hid. split.
  - apply sort_StronglySorted. apply Forall_app. split.
    + eapply Forall_impl; [exact Hl|]. intros e He.
      apply orderMap_from_known. now right.
    + constructor; [|constructor]. apply orderMap_from_known. now right.
  - intros Hnd e j _ Hj. unfold Combobox.position, Combobox.orderMap.
    now rewrite (orderMap_from_position (default [] queried) 0 ∅ _ j Hnd Hj).
Qed.

Lemma registerOption_orders_by_document_witness :
  StronglySorted
    (fun a z => (Combobox.position (Some ["a"%string; "b"%string]) a <=
                 Combobox.position (Some ["a"%string; "b"%string]) z)%nat)
    (Combobox.options
       (Combobox.registerOption
          (Combobox.registerOption (Combobox.initial false None)
             (Some ["a"%string; "b"%string]) "b" (Combobox.mkDataRef false JSNull))
          (Some ["a"%string; "b"%string]) "a" (Combobox.mkDataRef false JSNull))).
Proof.
  destruct (registerOption_orders_by_document
              (Combobox.registerOption (Combobox.initial false None)
                 (Some ["a"%string; "b"%string]) "b" (Combobox.mkDataRef false JSNull))
              (Some ["a"%string; "b"%string]) "a" (Combobox.mkDataRef false JSNull))
    as [_ H].
  apply H.
  - vm_compute. constructor; [right; left; reflexivity|constructor].
  - left. reflexivity.
Defined.

(** With the options element not mounted nothing is queried; the new entry
    is still added and none is lost. *)
Example registerOption_unmounted :
  List.map Combobox.id
    (Combobox.options
       (Combobox.registerOption
          (Combobox.registerOption (Combobox.initial false None)
             None "b" (Combobox.mkDataRef false JSNull))
          None "a" (Combobox.mkDataRef false JSNull)))
  = ["b"%string; "a"%string].
Proof. evaluate. Qed.

(** Registered in the order b, a, the options are listed in the order of the
    document, a, b. *)
Example registerOption_reorders :
  List.map Combobox.id
    (Combobox.options
       (Combobox.registerOption
          (Combobox.registerOption (Combobox.initial false None)
             (Some ["a"%string; "b"%string]) "b" (Combobox.mkDataRef false JSNull))
          (Some ["a"%string; "b"%string]) "a" (Combobox.mkDataRef false JSNull)))
  = ["a"%string; "b"%string].
Proof. evaluate. Qed.

(** ** The active index stays in range *)

Lemma registerOption_length (s : Combobox.State) (queried : option (list string))
    (id' : string) (d : Combobox.DataRef) :
  List.length (Combobox.options (Combobox.registerOption s queried id' d))
  = S (List.length (Combobox.options s)).
Proof.
  cbn [Combobox.registerOption Combobox.options Combobox.set_options].
  rewrite (Permutation_length (sort_Permutation _ _)), length_app. cbn. lia.
Qed.

Lemma unregisterOption_in_range (s : Combobox.State) (id' : string) :
  Combobox.index_in_range s ->
  Combobox.index_in_range (Combobox.unregisterOption s id').
Proof.
  unfold Combobox.index_in_range. intros H i.
  unfold Combobox.unregisterOption.
  cbn [Combobox.activeOptionIndex Combobox.set_activeOptionIndex
       Combobox.options Combobox.set_options].
  destruct (Combobox.activeOptionIndex s) as [a|] eqn:Ea; [|discriminate].
  specialize (H a eq_refl). cbn [Combobox.same_index].
  destruct (Z.eqb_spec (Combobox.findIndex_by_id (Combobox.options s) id') a)
    as [_|Hne]; [discriminate|].
  destruct (at_index_in_range _ _ H) as (o & Ho). rewrite Ho.
  intros [= <-]. apply at_index_nth in Ho as [_ Ho].
  apply indexOf_In.
  destruct (Z.eqb_spec (Combobox.findIndex_by_id (Combobox.options s) id') (-1)).
  - eapply nth_error_In; eauto.
  - apply (splice1_In_other _ (Z.to_nat a)); [exact Ho|].
    pose proof (findIndex_by_id_range (Combobox.options s) id'). lia.
Qed.

Lemma call_in_range
    (calculateActiveIndex : Combobox.Calculate) (s : Combobox.State)
    (c : Combobox.Call) :
  Combobox.calculate_in_range calculateActiveIndex ->
  Combobox.index_in_range s ->
  exists s', Combobox.call calculateActiveIndex s c = Normal s' /\
             Combobox.index_in_range s'.
Proof.
  intros Hcalc Hs. destruct c; cbn [Combobox.call].
  - eexists. split; [reflexivity|]. unfold Combobox.closeCombobox.
    destruct (Combobox.props_disabled s); [exact Hs|].
    destruct (Combobox.is_Closed _); [exact Hs|]. intros i. discriminate.
  - eexists. split; [reflexivity|]. unfold Combobox.openCombobox.
    destruct (Combobox.props_disabled s); [exact Hs|].
    destruct (Combobox.is_Open _); exact Hs.
  - eexists. split; [reflexivity|]. unfold Combobox.goToOption.
    destruct (Combobox.props_disabled s); [exact Hs|].
    destruct (Combobox.is_Closed _); [exact Hs|].
    destruct (_ && _); [exact Hs|].
    intros i. cbn. intros Hi.
    destruct (Hcalc (if Combobox.Focus_eqb focus Combobox.Specific
                     then Combobox.mkAction Combobox.Specific id'
                     else Combobox.mkAction focus None)
                (Combobox.options s) (Combobox.activeOptionIndex s))
      as [E|[E|(j & E & Hj)]]; rewrite E in Hi.
    + discriminate.
    + now apply Hs.
    + congruence.
  - eexists. split; [reflexivity|]. unfold Combobox.selectOption.
    destruct (Combobox.find_by_id _ _); [|exact Hs].
    unfold Combobox.index_in_range.
    destruct (emit_value_frame s (Combobox.dataRef o)) as (_ & -> & -> & _).
    exact Hs.
  - unfold Combobox.selectActiveOption.
    destruct (Combobox.activeOptionIndex s) as [a|] eqn:Ea; [|eauto].
    destruct (at_index_in_range _ _ (Hs a Ea)) as (o & ->).
    eexists. split; [reflexivity|]. unfold Combobox.index_in_range.
    destruct (emit_value_frame s (Combobox.dataRef o)) as (_ & -> & -> & _).
    exact Hs.
  - eexists. split; [reflexivity|]. intros i Hi.
    rewrite registerOption_length. specialize (Hs i Hi). lia.
  - eexists. split; [reflexivity|]. now apply unregisterOption_in_range.
  - eexists. split; [reflexivity|]. unfold Combobox.select.
    destruct (Combobox.props_disabled s); exact Hs.
  - eexists. split; [reflexivity|]. exact Hs.
Qed.

(** As long as [calculateActiveIndex] answers [null], the active index it
    was given or a position of the items, every sequence of mutator calls
    completes without a throw and leaves [activeOptionIndex] either [null]
    or a position of [options]: in particular [selectActiveOption] never
    destructures [undefined], and unregistering options never leaves the
    index dangling. *)
Theorem active_index_stays_in_range
    (calculateActiveIndex : Combobox.Calculate) (cs : list Combobox.Call)
    (s : Combobox.State) :
  Combobox.calculate_in_range calculateActiveIndex ->
  Combobox.index_in_range s ->
  exists s', Combobox.calls calculateActiveIndex s cs = Normal s' /\
             Combobox.index_in_range s'.
Proof.
  intros Hcalc. revert s.
  induction cs as [|c cs IH]; intros s Hs; cbn [Combobox.calls]; [eauto|].
  destruct (call_in_range calculateActiveIndex s c Hcalc Hs) as (s1 & -> & H1).
  now apply IH.
Qed.

Lemma active_index_stays_in_range_witness :
  exists s',
    Combobox.calls
      (fun _ items _ => match items with [] => None | _ => Some 0 end)
      (Combobox.initial false None)
      [ Combobox.OpenCombobox;
        Combobox.RegisterOption (Some ["a"%string]) "a"
          (Combobox.mkDataRef false (JSString "A"));
        Combobox.GoToOption Combobox.First None;
        Combobox.SelectActiveOption;
        Combobox.UnregisterOption "a";
        Combobox.SelectActiveOption ] = Normal s' /\
    Combobox.index_in_range s'.
Proof.
  apply active_index_stays_in_range.
  - intros action items active. destruct items as [|x items]; [now left|].
    right. right. exists 0. split; [reflexivity|]. cbn [List.length]. lia.
  - intros i. discriminate.
Defined.

(** ** The option objects stay distinct *)

Lemma splice1_distinct (l : list Combobox.OptionEntry) (idx : nat) :
  NoDup (List.map Combobox.object l) ->
  NoDup (List.map Combobox.object (Combobox.splice1 l idx)).
Proof.
  revert idx. induction l as [|x l IH]; intros idx H; [destruct idx; exact H|].
  cbn [List.map] in H. apply NoDup_cons in H as [Hx Hl].
  destruct idx as [|idx]; cbn [Combobox.splice1 List.map]; [exact Hl|].
  apply NoDup_cons. split; [|now apply IH].
  intros Hin. apply Hx. apply list_elem_of_In in Hin. apply list_elem_of_In.
  apply in_map_iff in Hin as (e & He & Hin). apply in_map_iff.
  exists e. split; [exact He|]. eapply splice1_incl; eauto.
Qed.

Lemma distinct_same_object (l : list Combobox.OptionEntry)
    (x y : Combobox.OptionEntry) :
  NoDup (List.map Combobox.object l) -> In x l -> In y l ->
  Combobox.object x = Combobox.object y -> x = y.
Proof.
  induction l as [|a l IH]; intros H Hx Hy E; [destruct Hx|].
  cbn [List.map] in H. apply NoDup_cons in H as [Ha Hl].
  destruct Hx as [->|Hx], Hy as [->|Hy].
  - reflexivity.
  - exfalso. apply Ha. apply list_elem_of_In, in_map_iff. exists y. auto.
  - exfalso. apply Ha. apply list_elem_of_In, in_map_iff. exists x. auto.
  - now apply IH.
Qed.

(** With distinct objects, [indexOf] of the entry at a position is that
    position. *)
Lemma indexOf_nth (l : list Combobox.OptionEntry) (n : nat)
    (o : Combobox.OptionEntry) :
  NoDup (List.map Combobox.object l) -> nth_error l n = Some o ->
  Combobox.indexOf l (Combobox.object o) = Z.of_nat n.
Proof.
  intros Hnd Hn.
  assert (Hin : In o l) by (eapply nth_error_In; eauto).
  pose proof (indexOf_In l o Hin) as Hr.
  destruct (indexOf_found l (Combobox.object o)) as (e & He & Ho); [lia|].
  assert (e = o).
  { apply (distinct_same_object l); auto. eapply nth_error_In; eauto. }
  subst e.
  assert (Hnd' : List.NoDup l).
  { clear -Hnd. induction l as [|a l IH]; constructor.
    - cbn [List.map] in Hnd. apply NoDup_cons in Hnd as [Ha _].
      intros Hin. apply Ha. apply list_elem_of_In, in_map_iff. exists a. auto.
    - apply IH. cbn [List.map] in Hnd. now apply NoDup_cons in Hnd as [_ ?]. }
  assert (Z.to_nat (Combobox.indexOf l (Combobox.object o)) = n).
  { eapply (proj1 (List.NoDup_nth_error l) Hnd'); [|congruence].
    apply nth_error_Some. congruence. }
  lia.
Qed.

Lemma splice1_removes (l : list Combobox.OptionEntry) (n : nat)
    (o : Combobox.OptionEntry) :
  NoDup (List.map Combobox.object l) -> nth_error l n = Some o ->
  ~ In o (Combobox.splice1 l n).
Proof.
  revert n. induction l as [|x l IH]; intros n H Hn; [now destruct n|].
  cbn [List.map] in H. apply NoDup_cons in H as [Hx Hl].
  destruct n as [|n]; cbn in Hn |- *.
  - injection Hn as ->. intros Hin. apply Hx.
    apply list_elem_of_In, in_map_iff. exists o. auto.
  - intros [->|Hin]; [|now apply (IH n)].
    apply Hx. apply list_elem_of_In, in_map_iff. exists o.
    split; [reflexivity|]. eapply nth_error_In; eauto.
Qed.

Lemma call_distinct_objects
    (calculateActiveIndex : Combobox.Calculate) (s s' : Combobox.State)
    (c : Combobox.Call) :
  Combobox.call calculateActiveIndex s c = Normal s' ->
  Combobox.distinct_objects s -> Combobox.distinct_objects s'.
Proof.
  unfold Combobox.distinct_objects.
  destruct c; cbn [Combobox.call].
  - intros [= <-]. unfold Combobox.closeCombobox.
    destruct (Combobox.props_disabled s); [auto|].
    destruct (Combobox.is_Closed _); auto.
  - intros [= <-]. unfold Combobox.openCombobox.
    destruct (Combobox.props_disabled s); [auto|].
    destruct (Combobox.is_Open _); auto.
  - intros [= <-]. unfold Combobox.goToOption.
    destruct (Combobox.props_disabled s); [auto|].
    destruct (Combobox.is_Closed _); [auto|]. destruct (_ && _); auto.
  - intros [= <-]. unfold Combobox.selectOption.
    destruct (Combobox.find_by_id _ _); [|auto].
    destruct (emit_value_frame s (Combobox.dataRef o)) as (_ & _ & -> & ->). auto.
  - unfold Combobox.selectActiveOption.
    destruct (Combobox.activeOptionIndex s); [|now intros [= <-]].
    destruct (Combobox.at_index _ _); [|discriminate]. intros [= <-].
    destruct (emit_value_frame s (Combobox.dataRef o)) as (_ & _ & -> & ->). auto.
  - intros [= <-] [Hnd Hall].
    cbn [Combobox.registerOption Combobox.options Combobox.set_options
         Combobox.allocated Combobox.set_allocated].
    pose proof (sort_Permutation
                  (Combobox.compare_order (Combobox.orderMap queried))
                  (Combobox.options s ++ [Combobox.mkOption (Combobox.allocated s) id' d]))
      as HP.
    split.
    + rewrite (Permutation_map Combobox.object HP), map_app. cbn [List.map].
      apply NoDup_app. split; [exact Hnd|]. split; [|apply NoDup_singleton].
      intros x Hx Hx'. apply list_elem_of_singleton in Hx'. subst x.
      apply list_elem_of_In, in_map_iff in Hx as (e & He & Hin).
      rewrite Forall_forall in Hall.
      specialize (Hall e (proj2 (list_elem_of_In _ _) Hin)). cbn in He. lia.
    + rewrite HP. apply Forall_app. split.
      * eapply Forall_impl; [exact Hall|]. cbn. intros; lia.
      * repeat constructor.
  - intros [= <-] [Hnd Hall].
    cbn [Combobox.unregisterOption Combobox.options Combobox.set_options
         Combobox.set_activeOptionIndex Combobox.allocated].
    destruct (_ =? -1); [auto|]. split; [now apply splice1_distinct|].
    rewrite Forall_forall in *. intros e He. apply Hall.
    apply list_elem_of_In. apply list_elem_of_In in He.
    eapply splice1_incl; eauto.
  - intros [= <-]. unfold Combobox.select.
    destruct (Combobox.props_disabled s); auto.
  - intros [= <-]. auto.
Qed.

(** Whatever mutators are called, the entries of [options] remain distinct
    objects: no object is ever listed twice, and every registration makes
    a new one. *)
Theorem option_objects_stay_distinct
    (calculateActiveIndex : Combobox.Calculate) (cs : list Combobox.Call)
    (s s' : Combobox.State) :
  Combobox.distinct_objects s ->
  Combobox.calls calculateActiveIndex s cs = Normal s' ->
  Combobox.distinct_objects s'.
Proof.
  revert s. induction cs as [|c cs IH]; intros s Hs; cbn [Combobox.calls].
  - now intros [= <-].
  - destruct (Combobox.call calculateActiveIndex s c) as [s1|m] eqn:E;
      [|discriminate].
    apply IH. eapply call_distinct_objects; eauto.
Qed.

Lemma option_objects_stay_distinct_witness :
  match
    Combobox.calls (fun _ _ active => active) (Combobox.initial false None)
      [ Combobox.RegisterOption (Some ["a"%string; "b"%string]) "b"
          (Combobox.mkDataRef false JSNull);
        Combobox.RegisterOption (Some ["a"%string; "b"%string]) "a"
          (Combobox.mkDataRef false JSNull);
        Combobox.UnregisterOption "b" ]
  with
  | Normal s' => Combobox.distinct_objects s'
  | Throw _ => False
  end.
Proof.
  destruct (Combobox.calls _ _ _) as [s'|m] eqn:E.
  - eapply option_objects_stay_distinct; [|exact E].
    split; constructor.
  - vm_compute in E. discriminate.
Defined.

(** ** Unregistering an option *)

(** [unregisterOption] keeps the active option active.  With distinct
    option objects and an active index that points at the option [o]: if
    [o] is the first option with the id, it is removed and no option is
    active any more; otherwise the new active index points at [o] again,
    wherever the removal has moved it; and unregistering an id that no
    option has changes nothing. *)
Theorem unregisterOption_keeps_active_option
    (s : Combobox.State) (id' : string) (a : Z) (o : Combobox.OptionEntry) :
  NoDup (List.map Combobox.object (Combobox.options s)) ->
  Combobox.activeOptionIndex s = Some a ->
  Combobox.at_index (Combobox.options s) a = Some o ->
  (Combobox.findIndex_by_id (Combobox.options s) id' = a ->
     Combobox.activeOptionIndex (Combobox.unregisterOption s id') = None /\
     ~ In o (Combobox.options (Combobox.unregisterOption s id'))) /\
  (Combobox.findIndex_by_id (Combobox.options s) id' <> a ->
     exists a',
       Combobox.activeOptionIndex (Combobox.unregisterOption s id') = Some a' /\
       Combobox.at_index (Combobox.options (Combobox.unregisterOption s id')) a'
         = Some o) /\
  ((forall e, In e (Combobox.options s) -> Combobox.id e <> id') ->
     Combobox.unregisterOption s id' = s).
Proof.
  intros Hnd Ha Ho.
  pose proof (proj1 (at_index_nth _ _ _) Ho) as [Ha0 Hn].
  unfold Combobox.unregisterOption. rewrite Ha, Ho.
  cbn [Combobox.activeOptionIndex Combobox.set_activeOptionIndex
       Combobox.options Combobox.set_options Combobox.same_index].
  split; [|split].
  - intros ->. rewrite Z.eqb_refl. split; [reflexivity|].
    destruct (Z.eqb_spec a (-1)); [lia|]. now apply splice1_removes.
  - intros Hne.
    destruct (Z.eqb_spec (Combobox.findIndex_by_id (Combobox.options s) id') a);
      [contradiction|].
    set (l' := if _ =? -1 then _ else _).
    assert (Hin : In o l').
    { unfold l'.
      destruct (Z.eqb_spec (Combobox.findIndex_by_id (Combobox.options s) id') (-1)).
      - eapply nth_error_In; eauto.
      - apply (splice1_In_other _ (Z.to_nat a)); [exact Hn|].
        pose proof (findIndex_by_id_range (Combobox.options s) id'). lia. }
    assert (Hnd' : NoDup (List.map Combobox.object l')).
    { unfold l'. destruct (_ =? -1); [exact Hnd|now apply splice1_distinct]. }
    pose proof (indexOf_In l' o Hin) as Hr.
    destruct (indexOf_found l' (Combobox.object o)) as (e & He & Heo); [lia|].
    exists (Combobox.indexOf l' (Combobox.object o)). split; [reflexivity|].
    apply at_index_nth. split; [lia|]. rewrite He. f_equal.
    apply (distinct_same_object l'); auto. eapply nth_error_In; eauto.
  - intros Hnone. rewrite (findIndex_by_id_none _ _ Hnone).
    destruct (Z.eqb_spec (-1) a); [lia|].
    change (-1 =? -1) with true. cbv iota.
    rewrite (indexOf_nth _ _ _ Hnd Hn).
    replace (Z.of_nat (Z.to_nat a)) with a by lia.
    destruct s as [d c l q act i0 e0 n0]. cbn in *. subst act. reflexivity.
Qed.

Lemma unregisterOption_keeps_active_option_witness :
  exists a',
    Combobox.activeOptionIndex
      (Combobox.unregisterOption
         (Combobox.mkState false Combobox.Open
            [ Combobox.mkOption 0 "a" (Combobox.mkDataRef false JSNull);
              Combobox.mkOption 1 "b" (Combobox.mkDataRef false JSNull) ]
            "" (Some 1) None [] 2) "a") = Some a' /\
    Combobox.at_index
      (Combobox.options
         (Combobox.unregisterOption
            (Combobox.mkState false Combobox.Open
               [ Combobox.mkOption 0 "a" (Combobox.mkDataRef false JSNull);
                 Combobox.mkOption 1 "b" (Combobox.mkDataRef false JSNull) ]
               "" (Some 1) None [] 2) "a")) a'
    = Some (Combobox.mkOption 1 "b" (Combobox.mkDataRef false JSNull)).
Proof.
  apply (unregisterOption_keeps_active_option
           (Combobox.mkState false Combobox.Open
              [ Combobox.mkOption 0 "a" (Combobox.mkDataRef false JSNull);
                Combobox.mkOption 1 "b" (Combobox.mkDataRef false JSNull) ]
              "" (Some 1) None [] 2) "a" 1
           (Combobox.mkOption 1 "b" (Combobox.mkDataRef false JSNull))).
  - cbn. repeat constructor; intros H; apply list_elem_of_In in H; cbn in H;
      intuition discriminate.
  - reflexivity.
  - reflexivity.
  - vm_compute. discriminate.
Defined.

(** ** Selecting an option *)

Lemma find_by_id_nth (l : list Combobox.OptionEntry) (n : nat)
    (o : Combobox.OptionEntry) :
  NoDup (List.map Combobox.id l) -> nth_error l n = Some o ->
  Combobox.find_by_id l (Combobox.id o) = Some o.
Proof.
  unfold Combobox.find_by_id. revert n.
  induction l as [|x l IH]; intros n Hnd Hn; [now destruct n|].
  cbn [List.map] in Hnd. apply NoDup_cons in Hnd as [Hx Hl].
  cbn [List.find]. destruct n as [|n]; cbn in Hn.
  - injection Hn as ->. now rewrite String.eqb_refl.
  - destruct (String.eqb_spec (Combobox.id x) (Combobox.id o)) as [E|_].
    + exfalso. apply Hx. rewrite E. apply list_elem_of_In, in_map_iff.
      exists o. split; [reflexivity|]. eapply nth_error_In; eauto.
    + eapply IH; eauto.
Qed.

Lemma find_by_id_none (l : list Combobox.OptionEntry) (k : string) :
  (forall e, In e l -> Combobox.id e <> k) -> Combobox.find_by_id l k = None.
Proof.
  unfold Combobox.find_by_id. intros H.
  destruct (List.find _ l) as [e|] eqn:E; [|reflexivity].
  apply find_some in E as [Hin He]. apply String.eqb_eq in He.
  now apply H in Hin.
Qed.

(** When the options have distinct ids, selecting the active option is
    selecting it by its id: both emit one [update:modelValue] carrying the
    value of that option, on top of what was emitted before.  Selecting an
    id that no option has does nothing. *)
Theorem selectActiveOption_is_selectOption
    (s : Combobox.State) (a : Z) (o : Combobox.OptionEntry) :
  NoDup (List.map Combobox.id (Combobox.options s)) ->
  Combobox.activeOptionIndex s = Some a ->
  Combobox.at_index (Combobox.options s) a = Some o ->
  Combobox.selectActiveOption s = Normal (Combobox.selectOption s (Combobox.id o)) /\
  Combobox.emitted (Combobox.selectOption s (Combobox.id o)) =
    ("update:modelValue"%string, Combobox.value (Combobox.dataRef o))
      :: Combobox.emitted s /\
  (forall k, (forall e, In e (Combobox.options s) -> Combobox.id e <> k) ->
             Combobox.selectOption s k = s).
Proof.
  intros Hnd Ha Ho.
  pose proof (proj1 (at_index_nth _ _ _) Ho) as [_ Hn].
  unfold Combobox.selectActiveOption, Combobox.selectOption.
  rewrite Ha, Ho, (find_by_id_nth _ _ _ Hnd Hn).
  split; [reflexivity|]. split.
  - unfold Combobox.emit_value.
    destruct (Combobox.value (Combobox.dataRef o)); try reflexivity.
    cbn. now destruct (Combobox.input s).
  - intros k Hk. now rewrite (find_by_id_none _ _ Hk).
Qed.

Lemma selectActiveOption_is_selectOption_witness :
  Combobox.selectActiveOption
    (Combobox.mkState true Combobox.Open
       [ Combobox.mkOption 0 "a" (Combobox.mkDataRef false (JSString "A"));
         Combobox.mkOption 1 "b" (Combobox.mkDataRef false (JSString "B")) ]
       "" (Some 1) (Some ""%string) [] 2)
  = Normal
      (Combobox.selectOption
         (Combobox.mkState true Combobox.Open
            [ Combobox.mkOption 0 "a" (Combobox.mkDataRef false (JSString "A"));
              Combobox.mkOption 1 "b" (Combobox.mkDataRef false (JSString "B")) ]
            "" (Some 1) (Some ""%string) [] 2) "b").
Proof.
  apply (selectActiveOption_is_selectOption
           (Combobox.mkState true Combobox.Open
              [ Combobox.mkOption 0 "a" (Combobox.mkDataRef false (JSString "A"));
                Combobox.mkOption 1 "b" (Combobox.mkDataRef false (JSString "B")) ]
              "" (Some 1) (Some ""%string) [] 2) 1
           (Combobox.mkOption 1 "b" (Combobox.mkDataRef false (JSString "B")))).
  - cbn. repeat constructor; intros H; apply list_elem_of_In in H; cbn in H;
      intuition discriminate.
  - reflexivity.
  - reflexivity.
Defined.

(** * Unmounting without [RestoreFocus] *)

Lemma perform_no_cleanup (s : State) (a : Step) :
  featuresRestoreFocus s = false -> invalidate s = false ->
  featuresRestoreFocus (perform s a) = false /\ invalidate (perform s a) = false.
Proof.
  intros HR Hi. split.
  - unfold featuresRestoreFocus in *. now rewrite perform_features.
  - destruct a as [el| |e|]; cbn [perform].
    + exact Hi.
    + unfold onMounted.
      set (s1 := arm_watcher _ _ s). set (s2 := restore_watcher _ _ s1).
      destruct (initial_focus_watcher_same_arming (initial_focus_sources s2) [] s2)
        as (_ & _ & ->).
      assert (E1 : s1 = s).
      { unfold s1, arm_watcher. rewrite HR. now destruct (unchanged _ _). }
      unfold s2, restore_watcher. rewrite E1, HR. now destruct (unchanged _ _).
    + destruct (dispatch s e) as [s'|m] eqn:E; [|exact Hi].
      destruct (dispatch_same_arming s s' e E) as (_ & _ & ->). exact Hi.
    + unfold unmount. now rewrite Hi.
Qed.

(** In a session started without [RestoreFocus] no cleanup is ever
    registered, so unmounting, at any point, changes nothing: focus stays
    where it is, even though [restoreElement] was captured when
    [useFocusTrap] was called. *)
Theorem unmount_without_restore_focus (s : State) (steps : list Step) :
  featuresRestoreFocus s = false ->
  invalidate s = false ->
  unmount (session s steps) = session s steps.
Proof.
  intros HR Hi.
  assert (H : featuresRestoreFocus (session s steps) = false /\
              invalidate (session s steps) = false).
  { unfold session. revert s HR Hi.
    induction steps as [|a steps IH]; intros s HR Hi; cbn [fold_left]; [auto|].
    destruct (perform_no_cleanup s a HR Hi) as [HR' Hi']. now apply IH. }
  destruct H as [_ H]. unfold unmount. now rewrite H.
Qed.

Lemma unmount_without_restore_focus_witness :
  unmount
    (session
       (useFocusTrap true (Sample.document (Some 4%nat)) Sample.containerRef
          (Z.lor Features.InitialFocus Features.TabLock) (mkOptions 0 None None))
       [Render (Some 1%nat); Mounted; Window (Keydown (Sample.press "Tab" false))])
  = session
      (useFocusTrap true (Sample.document (Some 4%nat)) Sample.containerRef
         (Z.lor Features.InitialFocus Features.TabLock) (mkOptions 0 None None))
      [Render (Some 1%nat); Mounted; Window (Keydown (Sample.press "Tab" false))].
Proof.
  apply unmount_without_restore_focus.
  - vm_compute. reflexivity.
  - reflexivity.
Defined.
